(* Shallow embedding of parts of conky's X11 output layer
   (src/output/x11.cc) and of the i8k fan-status formatter
   (src/data/hardware/i8k.cc). *)

From Stdlib Require Import ZArith List String Ascii Bool Lia.
Import ListNotations.
Open Scope Z_scope.

(* ------------------------------------------------------------------------- *)
(** * C strings and libc helpers *)

Module CStr.

(** A [char *] is either the null pointer or a character sequence; the
    sequence stops at the first NUL when read as a C string. *)
Definition cptr := option (list ascii).

Definition nul : ascii := Ascii.ascii_of_nat 0.

Fixpoint take_cstr (s : list ascii) : list ascii :=
  match s with
  | [] => []
  | c :: s' => if Ascii.eqb c nul then [] else c :: take_cstr s'
  end.

(** [isspace] in the C locale. *)
Definition is_space (c : ascii) : bool :=
  let n := Ascii.nat_of_ascii c in
  Nat.eqb n 32 || (Nat.leb 9 n && Nat.leb n 13).

Definition digit_value (c : ascii) : option Z :=
  let n := Ascii.nat_of_ascii c in
  if Nat.leb 48 n && Nat.leb n 57 then Some (Z.of_nat n - 48) else None.

Definition LONG_MAX : Z := 2 ^ 63 - 1.
Definition LONG_MIN : Z := - 2 ^ 63.

(** Digits accumulated by [strtol]; saturation is applied at the end. *)
Fixpoint digits_acc (s : list ascii) (acc : Z) : Z :=
  match s with
  | [] => acc
  | c :: s' =>
      match digit_value c with
      | Some d => digits_acc s' (acc * 10 + d)
      | None => acc
      end
  end.

Fixpoint skip_spaces (s : list ascii) : list ascii :=
  match s with
  | c :: s' => if is_space c then skip_spaces s' else s
  | [] => []
  end.

(** glibc [strtol(s, NULL, 10)] on a 64-bit [long]: leading white space,
    an optional sign, decimal digits, saturating at LONG_MIN/LONG_MAX. *)
Definition strtol10 (s0 : list ascii) : Z :=
  let s := skip_spaces (take_cstr s0) in
  let '(neg, rest) :=
    match s with
    | c :: s' =>
        if Ascii.eqb c "-"%char then (true, s')
        else if Ascii.eqb c "+"%char then (false, s')
        else (false, s)
    | [] => (false, [])
    end in
  let v := digits_acc rest 0 in
  if neg then Z.max LONG_MIN (- v) else Z.min LONG_MAX v.

(** Conversion of a [long] to a 32-bit [int] (two's complement wrap). *)
Definition to_int32 (z : Z) : Z :=
  let m := z mod 2 ^ 32 in
  if m >=? 2 ^ 31 then m - 2 ^ 32 else m.

(** glibc [atoi(s)] is [(int) strtol(s, NULL, 10)]. *)
Definition atoi (s : list ascii) : Z := to_int32 (strtol10 s).

(** [snprintf(p, n, "%s", s)]: what ends up in the buffer [p]. *)
Definition snprintf_s (p_max_size : Z) (s : list ascii) : list ascii :=
  if p_max_size <=? 0 then []
  else firstn (Z.to_nat (p_max_size - 1)) (take_cstr s).

Definition of_string (s : string) : list ascii := list_ascii_of_string s.

End CStr.

(* ------------------------------------------------------------------------- *)
(** * i8k.cc: [print_i8k_fan_status] *)

Module I8k.
Import CStr.

Definition status_arr : list (list ascii) :=
  map of_string ["off"; "low"; "high"; "error"]%string.

(** The index computed from the status pointer. *)
Definition fan_status_index (status : cptr) : Z :=
  let i := match status with Some s => atoi s | None => 3 end in
  if (i <? 0) || (i >? 3) then 3 else i.

(** [status_arr[i]]: [None] models an out-of-bounds read. *)
Definition fan_status_string (status : cptr) : option (list ascii) :=
  nth_error status_arr (Z.to_nat (fan_status_index status)).

(** [print_i8k_fan_status(p, p_max_size, status)]: the buffer contents,
    [None] if the array access were out of bounds. *)
Definition print_i8k_fan_status (p_max_size : Z) (status : cptr)
  : option (list ascii) :=
  option_map (snprintf_s p_max_size) (fan_status_string status).

End I8k.

(* ------------------------------------------------------------------------- *)
(** * Window properties as returned by [XGetWindowProperty] *)

Module Prop_.

Definition Atom := Z.
Definition None_ : Atom := 0.
Definition XA_CARDINAL : Atom := 6.
Definition XA_WINDOW : Atom := 33.

(** The outputs of one [XGetWindowProperty] call: its status (0 on
    Success), [actual_type], [actual_format], [nitems] and the returned
    items (bytes for format 8, C [long]s for format 32).  [prop] is
    [nullptr] exactly when [r_data] is [None]. *)
Record reply := mk_reply {
  r_status : Z;
  r_type : Atom;
  r_format : Z;
  r_nitems : Z;
  r_data : option (list Z)
}.

(** [prop[0]] through an [unsigned char *] on a little-endian host: the
    low byte of the first item. *)
Definition first_byte (r : reply) : Z :=
  match r.(r_data) with
  | Some (x :: _) => Z.land x 255
  | _ => 0
  end.

End Prop_.

(* ------------------------------------------------------------------------- *)
(** * Desktop-state cache: [info.x11.desktop] *)

Module DesktopCache.
Import Prop_.

Record desktop := mk_desktop {
  current : Z;
  number : Z;
  all_names : list ascii;
  name : list ascii
}.

Definition set_current (d : desktop) (v : Z) : desktop :=
  mk_desktop v d.(number) d.(all_names) d.(name).
Definition set_number (d : desktop) (v : Z) : desktop :=
  mk_desktop d.(current) v d.(all_names) d.(name).
Definition set_all_names (d : desktop) (v : list ascii) : desktop :=
  mk_desktop d.(current) d.(number) v d.(name).
Definition set_name (d : desktop) (v : list ascii) : desktop :=
  mk_desktop d.(current) d.(number) d.(all_names) v.

(** The property read is only issued when the atom is not [None]; the
    reply of that read is the argument [r]. *)
Definition cardinal_ok (r : reply) : bool :=
  (r.(r_status) =? 0) && (r.(r_type) =? XA_CARDINAL)
  && (r.(r_nitems) =? 1) && (r.(r_format) =? 32).

(** [get_x11_desktop_current] *)
Definition get_x11_desktop_current (atom : Atom) (r : reply) (d : desktop)
  : desktop :=
  if atom =? None_ then d
  else if cardinal_ok r then set_current d (first_byte r + 1) else d.

(** [get_x11_desktop_number] *)
Definition get_x11_desktop_number (atom : Atom) (r : reply) (d : desktop)
  : desktop :=
  if atom =? None_ then d
  else if cardinal_ok r then set_number d (first_byte r) else d.

Definition byte_list_to_ascii (l : list Z) : list ascii :=
  map (fun z => Ascii.ascii_of_N (Z.to_N (Z.land z 255))) l.

(** [get_x11_desktop_names]; [utf8] is the atom [UTF8_STRING].
    [all_names.assign(prop, nitems)] copies [nitems] bytes. *)
Definition names_ok (utf8 : Atom) (r : reply) : bool :=
  (r.(r_status) =? 0) && (r.(r_type) =? utf8)
  && (r.(r_nitems) >? 0) && (r.(r_format) =? 8).

Definition get_x11_desktop_names (utf8 : Atom) (atom : Atom) (r : reply)
  (d : desktop) : desktop :=
  if atom =? None_ then d
  else if names_ok utf8 r
  then
    let bytes := match r.(r_data) with Some l => l | None => [] end in
    set_all_names d
      (firstn (Z.to_nat r.(r_nitems)) (byte_list_to_ascii bytes))
  else d.

(** [get_x11_desktop_current_name(names)]: the loop over [names] with
    [i] (position), [j] (start of the current entry) and [k] (number of
    NULs seen so far). *)
Fixpoint current_name_loop (names rest : list ascii) (i j : nat) (k : Z)
  (cur : Z) (d : desktop) : desktop :=
  match rest with
  | [] => d
  | c :: rest' =>
      let i' := S i in
      if Ascii.eqb c CStr.nul then
        let k' := k + 1 in
        if k' =? cur then set_name d (CStr.take_cstr (skipn j names))
        else current_name_loop names rest' i' i' k' cur d
      else current_name_loop names rest' i' j k cur d
  end.

Definition get_x11_desktop_current_name (names : list ascii) (d : desktop)
  : desktop :=
  current_name_loop names names 0 0 0 d.(current) d.

(** A cardinal reply that fails or mismatches in status, type, item count
    or format. *)
Definition cardinal_mismatch (r : reply) : Prop :=
  r.(r_status) <> 0 \/ r.(r_type) <> XA_CARDINAL \/ r.(r_nitems) <> 1
  \/ r.(r_format) <> 32.

(** A name-list reply that fails or mismatches. *)
Definition names_mismatch (utf8 : Atom) (r : reply) : Prop :=
  r.(r_status) <> 0 \/ r.(r_type) <> utf8 \/ r.(r_nitems) <= 0
  \/ r.(r_format) <> 8.

(** The name list of the scenario of C9. *)
Definition three_desks : list ascii :=
  CStr.of_string "Desk1" ++ [CStr.nul] ++ CStr.of_string "Desk2" ++ [CStr.nul]
  ++ CStr.of_string "Desk3" ++ [CStr.nul].

End DesktopCache.

(* ------------------------------------------------------------------------- *)
(** * The X server's side as seen by the code *)

Module Server.
Import Prop_.

Definition Window := Z.

(** Property formats the X protocol allows for a stored property. *)
Inductive format := F8 | F16 | F32.

Definition format_value (f : format) : Z :=
  match f with F8 => 8 | F16 => 16 | F32 => 32 end.

Record property := mk_property {
  p_type : Atom;
  p_format : format;
  p_data : list Z            (** items of the property *)
}.

Definition AnyPropertyType : Atom := 0.

(** [XGetWindowProperty(dpy, w, atom, 0, long_length, False, req_type, ...)]
    on a window whose properties are [props]: a property that does not
    exist gives type [None], format 0 and a null [prop]; a type mismatch
    gives the actual type and format, no items and an (empty) allocated
    buffer; otherwise at most [long_length] 32-bit units are returned. *)
Definition get_property (props : Atom -> option property) (atom : Atom)
  (long_length : Z) (req_type : Atom) : reply :=
  match props atom with
  | None => mk_reply 0 None_ 0 0 None
  | Some p =>
      if negb (req_type =? AnyPropertyType) && negb (req_type =? p.(p_type))
      then mk_reply 0 p.(p_type) (format_value p.(p_format)) 0 (Some [])
      else
        let max_items := long_length * 32 / format_value p.(p_format) in
        let n := Z.min (Z.of_nat (List.length p.(p_data))) max_items in
        mk_reply 0 p.(p_type) (format_value p.(p_format)) n
          (Some (firstn (Z.to_nat n) p.(p_data)))
  end.

(** [~0L] as [long_length]: sent on the wire as the 32-bit unit count
    0xFFFFFFFF. *)
Definition all_of_it : Z := 2 ^ 32 - 1.

End Server.

(* ------------------------------------------------------------------------- *)
(** * [x11_atom_window_list] and [VRootWindowOfScreen] *)

Module VRoot.
Import Prop_ Server.

(** [XInternAtom(display, name, True)]: 0 when the atom does not exist. *)
Record xstate := mk_xstate {
  intern : string -> Atom;
  root_props : Atom -> option property
}.

(** [x11_atom_window_list(display, root, atom)]; note that the test is
    written against [actual_format], as in the source. *)
Definition x11_atom_window_list (st : xstate) (atom : Atom) : list Window :=
  let r := get_property st.(root_props) atom all_of_it XA_WINDOW in
  if r.(r_status) =? 0 then
    if (r.(r_format) =? XA_WINDOW) && (r.(r_nitems) >? 0) then
      match r.(r_data) with Some l => firstn (Z.to_nat r.(r_nitems)) l
                         | None => [] end
    else []
  else [].

(** Outcome of a function that may dereference a missing buffer. *)
Inductive outcome (A : Type) := Ret (a : A) | Crash.
Arguments Ret {A} a.
Arguments Crash {A}.

(** [*cardinal] with [int *cardinal] aliasing the returned buffer: the
    low 32 bits of the first item on a little-endian host; reading from a
    null or empty buffer is undefined ([Crash]). *)
Definition deref_int (r : reply) : outcome Z :=
  match r.(r_data) with
  | Some (x :: _) => Ret (CStr.to_int32 x)
  | _ => Crash
  end.

(** [VRootWindowOfScreen(screen)] with [root] the true root window. *)
Definition VRootWindowOfScreen (st : xstate) (root : Window) : outcome Window :=
  let a_vroots := st.(intern) "_NET_VIRTUAL_ROOTS"%string in
  if a_vroots =? 0 then Ret root else
  let vroots := x11_atom_window_list st a_vroots in
  match vroots with
  | [] => Ret root
  | _ =>
      let a_cur := st.(intern) "_NET_CURRENT_DESKTOP"%string in
      if a_cur =? 0 then Ret root else
      let r := get_property st.(root_props) a_cur 1 XA_CARDINAL in
      match deref_int r with
      | Crash => Crash
      | Ret c =>
          (* [vroots.size() > *cardinal]: [*cardinal] converted to size_t *)
          let cu := c mod 2 ^ 64 in
          if Z.of_nat (List.length vroots) >? cu
          then Ret (nth (Z.to_nat cu) vroots root) else Ret root
      end
  end.

End VRoot.

(* ------------------------------------------------------------------------- *)
(** * [find_desktop_window_impl] and [find_desktop_window] *)

Module DesktopSearch.
Import Server.

Inductive map_state := IsUnmapped | IsUnviewable | IsViewable.

Record wattrs := mk_wattrs {
  a_map_state : map_state;
  a_override_redirect : bool;
  a_width : Z;
  a_height : Z
}.

(** The window tree as the code queries it: [XQueryTree] children in
    stacking order, and [XGetWindowAttributes] ([None] when it fails). *)
Record tree := mk_tree {
  children : Window -> list Window;
  attributes : Window -> option wattrs
}.

Definition is_viewable (m : map_state) : bool :=
  match m with IsViewable => true | _ => false end.

(** The test applied to [children[j]] in the inner loop. *)
Definition child_matches (t : tree) (w h : Z) (c : Window) : bool :=
  match t.(attributes) c with
  | Some a =>
      is_viewable a.(a_map_state) && negb a.(a_override_redirect)
      && (a.(a_width) =? w) && (a.(a_height) =? h)
  | None => false
  end.

(** The inner [for (j = 0; j < n; j++)] loop: the first matching child. *)
Fixpoint first_match (t : tree) (w h : Z) (l : list Window) : option Window :=
  match l with
  | [] => None
  | c :: l' => if child_matches t w h c then Some c else first_match t w h l'
  end.

(** The outer [for (i = 0; i < 10; i++)] loop; [fuel] counts the
    remaining iterations, the loop breaks when [j == n]. *)
Fixpoint search_levels (t : tree) (w h : Z) (fuel : nat) (win : Window)
  : Window :=
  match fuel with
  | O => win
  | S fuel' =>
      match first_match t w h (t.(children) win) with
      | Some c => search_levels t w h fuel' c
      | None => win
      end
  end.

Definition find_desktop_window_impl (t : tree) (win : Window) (w h : Z)
  : Window :=
  search_levels t w h 10 win.

(** [find_desktop_window(root)]: a pass with the display size, then one
    with the work area's size from the result of the first pass. *)
Definition find_desktop_window (t : tree) (root : Window)
  (display_width display_height workarea_width workarea_height : Z) : Window :=
  let desktop := find_desktop_window_impl t root display_width display_height in
  find_desktop_window_impl t desktop workarea_width workarea_height.

(** [c] is the first child in [l] (enumeration order) passing the test. *)
Definition first_match_in (t : tree) (w h : Z) (l : list Window) (c : Window)
  : Prop :=
  exists pre post, l = pre ++ c :: post /\ child_matches t w h c = true /\
  forallb (fun x => negb (child_matches t w h x)) pre = true.

(** [path] lists the windows taken level by level from [win], each the
    first matching child of the previous one. *)
Inductive chain (t : tree) (w h : Z) : Window -> list Window -> Prop :=
  | chain_nil win : chain t w h win []
  | chain_cons win c path :
      first_match_in t w h (t.(children) win) c -> chain t w h c path ->
      chain t w h win (c :: path).

End DesktopSearch.

(* ------------------------------------------------------------------------- *)
(** * [update_x11_workarea] *)

Module Workarea.

(** [conky::absolute_rect<int>]: position and size. *)
Record rect := mk_rect { rx : Z; ry : Z; rw : Z; rh : Z }.

(** [XineramaScreenInfo] *)
Record head := mk_head { x_org : Z; y_org : Z; h_width : Z; h_height : Z }.

(** What the server reports: whether the Xinerama extension is present
    and active, and the result of [XineramaQueryScreens] ([None] for a
    null pointer; [heads] is the length of the list otherwise). *)
Record xinerama := mk_xinerama {
  xin_present : bool;
  xin_active : bool;
  xin_screens : option (list head)
}.

(** Messages logged through [NORM_ERR]. *)
Inductive warning := WarnQueryScreensNull | WarnInvalidHeadIndex.

(** [update_x11_workarea()] with [BUILD_XINERAMA] as [build_xinerama]:
    the new work area and the warnings logged. *)
Definition update_x11_workarea (build_xinerama : bool)
  (display_width display_height : Z) (x : xinerama) (head_index : Z)
  : rect * list warning :=
  let full := mk_rect 0 0 display_width display_height in
  if negb build_xinerama then (full, []) else
  if negb x.(xin_present) then (full, []) else
  if negb x.(xin_active) then (full, []) else
  match x.(xin_screens) with
  | None => (full, [WarnQueryScreensNull])
  | Some si =>
      let heads := Z.of_nat (List.length si) in
      if (head_index <? 0) || (head_index >=? heads)
      then (full, [WarnInvalidHeadIndex])
      else
        let ps := nth (Z.to_nat head_index) si (mk_head 0 0 0 0) in
        (mk_rect ps.(x_org) ps.(y_org) ps.(h_width) ps.(h_height), [])
  end.

Definition rect_within (r : rect) (display_width display_height : Z) : Prop :=
  0 <= r.(rx) /\ 0 <= r.(ry) /\ 0 <= r.(rw) /\ 0 <= r.(rh)
  /\ r.(rx) + r.(rw) <= display_width /\ r.(ry) + r.(rh) <= display_height.

End Workarea.

(* ------------------------------------------------------------------------- *)
(** * [set_struts] *)

Module Struts.

(** Indices of [x11_strut::value]. *)
Definition LEFT := 0%nat.
Definition RIGHT := 1%nat.
Definition TOP := 2%nat.
Definition BOTTOM := 3%nat.
Definition LEFT_START_Y := 4%nat.
Definition LEFT_END_Y := 5%nat.
Definition RIGHT_START_Y := 6%nat.
Definition RIGHT_END_Y := 7%nat.
Definition TOP_START_X := 8%nat.
Definition TOP_END_X := 9%nat.
Definition BOTTOM_START_X := 10%nat.
Definition BOTTOM_END_X := 11%nat.
Definition COUNT := 12%nat.

(** [x11_strut::array()]: twelve zeros. *)
Definition array : list Z := repeat 0 COUNT.

(** [sizes[k] = v] *)
Fixpoint set_slot (l : list Z) (k : nat) (v : Z) : list Z :=
  match l, k with
  | [], _ => []
  | _ :: l', O => v :: l'
  | x :: l', S k' => x :: set_slot l' k' v
  end.

(** [std::clamp(v, lo, hi)] *)
Definition clamp (v lo hi : Z) : Z := if v <? lo then lo else if hi <? v then hi else v.

(** [conky::rect<int>] of the window: [end_x = x + width],
    [end_y = y + height]. *)
Record geometry := mk_geometry { gx : Z; gy : Z; gwidth : Z; gheight : Z }.
Definition end_x (g : geometry) := g.(gx) + g.(gwidth).
Definition end_y (g : geometry) := g.(gy) + g.(gheight).

Inductive alignment :=
  | NONE | TOP_LEFT | TOP_RIGHT | TOP_MIDDLE | BOTTOM_LEFT | BOTTOM_RIGHT
  | BOTTOM_MIDDLE | MIDDLE_LEFT | MIDDLE_MIDDLE | MIDDLE_RIGHT.

Inductive window_manager :=
  | wm_compiz | wm_fluxbox | wm_i3 | wm_kwin | wm_enlightenment | wm_other.

Definition cutout_wm (wm : window_manager) : bool :=
  match wm with wm_compiz | wm_fluxbox | wm_i3 | wm_kwin => true | _ => false end.

Definition is_i3 (wm : window_manager) : bool :=
  match wm with wm_i3 => true | _ => false end.

(** The three reservations written by every branch. *)
Definition reserve_top (g : geometry) (dw dh : Z) (s : list Z) : list Z :=
  let s := set_slot s TOP (clamp (end_y g) 0 dh) in
  let s := set_slot s TOP_START_X (clamp g.(gx) 0 dw) in
  set_slot s TOP_END_X (clamp (end_x g) 0 dw).
Definition reserve_bottom (g : geometry) (dw dh : Z) (s : list Z) : list Z :=
  let s := set_slot s BOTTOM (dh - clamp g.(gy) 0 dh) in
  let s := set_slot s BOTTOM_START_X (clamp g.(gx) 0 dw) in
  set_slot s BOTTOM_END_X (clamp (end_x g) 0 dw).
Definition reserve_left (g : geometry) (dw dh : Z) (s : list Z) : list Z :=
  let s := set_slot s LEFT (clamp (end_x g) 0 dw) in
  let s := set_slot s LEFT_START_Y (clamp g.(gy) 0 dh) in
  set_slot s LEFT_END_Y (clamp (end_y g) 0 dh).
Definition reserve_right (g : geometry) (dw dh : Z) (s : list Z) : list Z :=
  let s := set_slot s RIGHT (dw - clamp g.(gx) 0 dw) in
  let s := set_slot s RIGHT_START_Y (clamp g.(gy) 0 dh) in
  set_slot s RIGHT_END_Y (clamp (end_y g) 0 dh).

Section SetStruts.

(** The numeric value [*align] of each alignment; its encoding is declared
    outside the analysed sources, so it is kept abstract. *)
Variable align_code : alignment -> Z.

(** What [set_struts] reads: whether the atoms [_NET_WM_STRUT] and
    [_NET_WM_STRUT_PARTIAL] exist, [ENABLE_RUNTIME_TWEAKS], the window
    manager, [text_alignment], the window geometry and the display size. *)
Record strut_input := mk_strut_input {
  has_strut_atom : bool;
  has_strut_partial_atom : bool;
  runtime_tweaks : bool;
  wm : window_manager;
  align : alignment;
  geom : geometry;
  display_width : Z;
  display_height : Z
}.

(** The computed [sizes] array, or [None] when the function returns before
    computing it; [wide] is the value of [static bool is_wide_window]
    ([None] before its initialisation), returned updated. *)
Definition compute_sizes (inp : strut_input) (wide : option bool)
  : option (list Z) * option bool :=
  let g := inp.(geom) in
  let dw := inp.(display_width) in
  let dh := inp.(display_height) in
  let s := array in
  if negb inp.(has_strut_atom) then (None, wide) else
  if inp.(runtime_tweaks) && cutout_wm inp.(wm) then
    if Z.land (align_code inp.(align)) 5 =? 0 then (None, wide) else
    let is_wide :=
      match wide with
      | Some b => b
      | None => (g.(gwidth) >? g.(gheight)) || is_i3 inp.(wm)
      end in
    let s :=
      if is_wide then
        match inp.(align) with
        | TOP_LEFT | TOP_RIGHT | TOP_MIDDLE => reserve_top g dw dh s
        | BOTTOM_LEFT | BOTTOM_RIGHT | BOTTOM_MIDDLE => reserve_bottom g dw dh s
        | MIDDLE_LEFT => reserve_left g dw dh s
        | MIDDLE_RIGHT => reserve_right g dw dh s
        | _ => s
        end
      else
        match inp.(align) with
        | TOP_LEFT | MIDDLE_LEFT | BOTTOM_LEFT => reserve_left g dw dh s
        | TOP_RIGHT | MIDDLE_RIGHT | BOTTOM_RIGHT => reserve_right g dw dh s
        | TOP_MIDDLE => reserve_top g dw dh s
        | BOTTOM_MIDDLE => reserve_bottom g dw dh s
        | _ => s
        end in
    (Some s, Some is_wide)
  else
    let s :=
      if g.(gwidth) <? g.(gheight) then
        let space_left := end_x g in
        let space_right := dw - end_x g + g.(gwidth) in
        if space_left <? space_right then reserve_left g dw dh s
        else reserve_right g dw dh s
      else
        let space_top := end_y g in
        let space_bottom := dh - end_y g + g.(gheight) in
        if space_top <? space_bottom then reserve_top g dw dh s
        else reserve_bottom g dw dh s in
    (Some s, wide).

(** The property writes of [set_struts]: [_NET_WM_STRUT] with the first
    4 values, then [_NET_WM_STRUT_PARTIAL] with all 12 when that atom
    exists. *)
Inductive strut_write := WriteStrut (vals : list Z) | WriteStrutPartial (vals : list Z).

Definition set_struts (inp : strut_input) (wide : option bool)
  : list strut_write * option bool :=
  match compute_sizes inp wide with
  | (None, wide') => ([], wide')
  | (Some s, wide') =>
      let w1 := WriteStrut (firstn 4 s) in
      if inp.(has_strut_partial_atom)
      then ([w1; WriteStrutPartial s], wide')
      else ([w1], wide')
  end.

End SetStruts.

(** Slots holding horizontal quantities (bounded by the display width);
    the others are bounded by the display height. *)
Definition horizontal_slot (k : nat) : bool :=
  match k with
  | 0 | 1 | 8 | 9 | 10 | 11 => true
  | _ => false
  end%nat.

Definition slot_bound (dw dh : Z) (k : nat) : Z :=
  if horizontal_slot k then dw else dh.

Definition write_values (w : strut_write) : list Z :=
  match w with WriteStrut v => v | WriteStrutPartial v => v end.

(** Every slot of [s] lies in [0, bound of the slot]. *)
Definition slots_ok (dw dh : Z) (s : list Z) : Prop :=
  forall k v, nth_error s k = Some v -> 0 <= v <= slot_bound dw dh k.

(** The side a slot describes (LEFT, RIGHT, TOP, BOTTOM): its width and
    the start and end of the reserved range along that side. *)
Definition side_of_slot (k : nat) : nat :=
  match k with
  | 0 | 4 | 5 => LEFT
  | 1 | 6 | 7 => RIGHT
  | 2 | 8 | 9 => TOP
  | _ => BOTTOM
  end%nat.

(** Only the slots of one side may be non-zero. *)
Definition one_side (s : list Z) : Prop :=
  exists side, forall k v, nth_error s k = Some v -> side_of_slot k <> side -> v = 0.

End Struts.

(* ------------------------------------------------------------------------- *)
(** * Creation of the own window in [x11_init_window] *)

Module WindowInit.
Import Server.

Inductive window_type := NORMAL | DOCK | PANEL | DESKTOP | UTILITY | OVERRIDE.

Inductive wm_state := NormalState | WithdrawnState.

Definition is_dock (t : window_type) : bool :=
  match t with DOCK => true | _ => false end.
Definition is_dock_or_panel (t : window_type) : bool :=
  match t with DOCK | PANEL => true | _ => false end.

(** The arguments of the [XCreateWindow] call of [x11_init_window] (own
    window branch): parent window and position, plus the initial state put
    in the [XWMHints] of a managed window ([None] for an override window,
    which gets no hints). *)
Record created := mk_created {
  c_parent : Window;
  c_x : Z;
  c_y : Z;
  c_initial_state : option wm_state
}.

(** [root] and [desktop] are [window.root] and [window.desktop];
    [(gx, gy)] is [window.geometry]'s position before the call;
    [is_fluxbox] is [info.system.wm == fluxbox]. *)
Definition create_own_window (ty : window_type) (root desktop : Window)
  (gx gy : Z) (is_fluxbox : bool) : created :=
  match ty with
  | OVERRIDE => mk_created desktop gx gy None
  | _ =>
      let '(x, y) := if is_dock ty then (0, 0) else (gx, gy) in
      let st :=
        if is_dock_or_panel ty && is_fluxbox then WithdrawnState
        else NormalState in
      mk_created root x y (Some st)
  end.

End WindowInit.

(* ------------------------------------------------------------------------- *)
(** * Event propagation: [propagate_x11_event], [propagate_xinput_event] *)

Module Propagate.
Import Server.

(** Core event type codes (X.h). *)
Definition KeyPress := 2.
Definition KeyRelease := 3.
Definition ButtonPress := 4.
Definition ButtonRelease := 5.
Definition MotionNotify := 6.
Definition EnterNotify := 7.
Definition LeaveNotify := 8.
Definition GenericEvent := 35.

(** XInput2 event codes (XI2.h). *)
Definition XI_ButtonPress := 4.
Definition XI_ButtonRelease := 5.
Definition XI_Motion := 6.

(** Event masks (X.h). *)
Definition NoEventMask := 0.
Definition KeyPressMask := Z.shiftl 1 0.
Definition KeyReleaseMask := Z.shiftl 1 1.
Definition ButtonPressMask := Z.shiftl 1 2.
Definition ButtonReleaseMask := Z.shiftl 1 3.
Definition EnterWindowMask := Z.shiftl 1 4.
Definition LeaveWindowMask := Z.shiftl 1 5.
Definition PointerMotionMask := Z.shiftl 1 6.
Definition Button1MotionMask := Z.shiftl 1 8.
Definition Button2MotionMask := Z.shiftl 1 9.
Definition Button3MotionMask := Z.shiftl 1 10.
Definition Button4MotionMask := Z.shiftl 1 11.
Definition Button5MotionMask := Z.shiftl 1 12.

(** [ev_to_mask(event_type, button)] *)
Definition ev_to_mask (event_type button : Z) : Z :=
  if event_type =? KeyPress then KeyPressMask
  else if event_type =? KeyRelease then KeyReleaseMask
  else if event_type =? ButtonPress then ButtonPressMask
  else if event_type =? ButtonRelease then
    if button =? 1 then Z.lor ButtonReleaseMask Button1MotionMask
    else if button =? 2 then Z.lor ButtonReleaseMask Button2MotionMask
    else if button =? 3 then Z.lor ButtonReleaseMask Button3MotionMask
    else if button =? 4 then Z.lor ButtonReleaseMask Button4MotionMask
    else if button =? 5 then Z.lor ButtonReleaseMask Button5MotionMask
    else ButtonReleaseMask
  else if event_type =? EnterNotify then EnterWindowMask
  else if event_type =? LeaveNotify then LeaveWindowMask
  else if event_type =? MotionNotify then PointerMotionMask
  else NoEventMask.

(** The fields of an [XEvent] the code reads or writes (the common
    prefix of the input events, plus [xgeneric.extension]). *)
Record xevent := mk_xevent {
  ev_type : Z;
  ev_window : Window;
  ev_x : Z;
  ev_y : Z;
  ev_x_root : Z;
  ev_y_root : Z;
  ev_button : Z;
  ev_time : Z;
  ev_extension : Z
}.

Definition CurrentTime := 0.

(** [conky::xi_event_data]: the fields read by [propagate_xinput_event]. *)
Record xi_event := mk_xi_event {
  xi_evtype : Z;
  xi_event_window : Window;
  xi_pos : Z * Z;
  xi_pos_absolute : Z * Z;
  xi_button : Z
}.

(** The state of [window] read here and the server queries made. *)
Record env := mk_env {
  w_window : Window;          (** [window.window], the overlay *)
  w_root : Window;            (** [window.root] *)
  w_desktop : Window;         (** [window.desktop] *)
  xi_opcode : option Z;       (** [window.xi_opcode]; [None] without
                                  [BUILD_XINPUT] *)
  (** [query_x11_windows_at_pos(display, pos, viewable)] *)
  windows_at : Z * Z -> list Window;
  (** [XTranslateCoordinates(display, src, dst, x, y, ...)]: the
      translated position and the child window written back *)
  translate : Window -> Window -> Z -> Z -> Z * Z * Window
}.

(** Requests sent to the server. *)
Inductive action :=
  | UngrabPointer
  | SendEvent (target : Window) (mask : Z) (ev : xevent)
  | SetInputFocus (target : Window)
  | Flush.

(** [std::remove_if] + [erase] of the overlay's window. *)
Definition remove_overlay (e : env) (l : list Window) : list Window :=
  filter (fun w => negb (w =? e.(w_window))) l.

(** [below.back()] when [below] is not empty. *)
Definition topmost (l : list Window) : option Window :=
  match rev l with [] => None | w :: _ => Some w end.

(** Modelled from the spec: [xi_event_data::generate_events], whose code is
    not among the analysed sources.  The spec (4.5, item 5) says the
    extension path forwards motion and button events with device
    coordinates translated; each XInput event becomes one core event of
    the corresponding type, addressed to [target] at [pos], with the mask
    [ev_to_mask] gives for it. *)
Definition generate_events (ev : xi_event) (target child : Window)
  (pos : Z * Z) : list (Z * xevent) :=
  let ty :=
    if ev.(xi_evtype) =? XI_Motion then MotionNotify
    else if ev.(xi_evtype) =? XI_ButtonPress then ButtonPress
    else ButtonRelease in
  let '(x, y) := pos in
  let '(xr, yr) := ev.(xi_pos_absolute) in
  [(ev_to_mask ty ev.(xi_button),
    mk_xevent ty target x y xr yr ev.(xi_button) CurrentTime 0)].

(** [propagate_xinput_event(ev)] *)
Definition propagate_xinput_event (e : env) (ev : xi_event) : list action :=
  if negb ((ev.(xi_evtype) =? XI_Motion) || (ev.(xi_evtype) =? XI_ButtonPress)
           || (ev.(xi_evtype) =? XI_ButtonRelease))
  then [] else
  let below := remove_overlay e (e.(windows_at) ev.(xi_pos_absolute)) in
  let '(target, child, target_pos) :=
    match topmost below with
    | None => (e.(w_root), 0, ev.(xi_pos))
    | Some t =>
        let '(ax, ay) := ev.(xi_pos_absolute) in
        let '(rx, ry, ch) :=
          e.(translate) e.(w_desktop) ev.(xi_event_window) ax ay in
        (t, ch, (rx, ry))
    end in
  let events := generate_events ev target child target_pos in
  UngrabPointer :: map (fun '(m, x) => SendEvent target m x) events ++ [Flush].

(** The target window chosen by [propagate_x11_event] for an event whose
    root coordinates are [(xr, yr)]. *)
Definition x11_target (e : env) (xr yr : Z) : Window :=
  match topmost (remove_overlay e (e.(windows_at) (xr, yr))) with
  | Some t => t
  | None => e.(w_desktop)
  end.

(** The target window chosen by [propagate_xinput_event]. *)
Definition xinput_target (e : env) (ev : xi_event) : Window :=
  match topmost (remove_overlay e (e.(windows_at) ev.(xi_pos_absolute))) with
  | Some t => t
  | None => e.(w_root)
  end.

Definition is_input_event (t : Z) : bool :=
  (t =? KeyPress) || (t =? KeyRelease) || (t =? ButtonPress)
  || (t =? ButtonRelease) || (t =? MotionNotify) || (t =? EnterNotify)
  || (t =? LeaveNotify).

(** [ev.type == GenericEvent && ev.xgeneric.extension == window.xi_opcode],
    compiled only with [BUILD_XINPUT]. *)
Definition is_xi_generic (e : env) (ev : xevent) : bool :=
  match e.(xi_opcode) with
  | Some op => (ev.(ev_type) =? GenericEvent) && (ev.(ev_extension) =? op)
  | None => false
  end.

(** [propagate_x11_event(ev, cookie)]; [cookie] is [None] for a null
    pointer. *)
Definition propagate_x11_event (e : env) (ev : xevent)
  (cookie : option xi_event) : list action :=
  let focus := ev.(ev_type) =? ButtonPress in
  if is_xi_generic e ev then
    match cookie with
    | None => []
    | Some c => propagate_xinput_event e c
    end
  else if negb (is_input_event ev.(ev_type)) then [] else
  let ev1 := mk_xevent ev.(ev_type) e.(w_desktop) ev.(ev_x_root) ev.(ev_y_root)
               ev.(ev_x_root) ev.(ev_y_root) ev.(ev_button) CurrentTime
               ev.(ev_extension) in
  let below :=
    remove_overlay e (e.(windows_at) (ev1.(ev_x_root), ev1.(ev_y_root))) in
  let ev2 :=
    match topmost below with
    | None => ev1
    | Some t =>
        let '(x, y, _) :=
          e.(translate) e.(w_root) t ev1.(ev_x_root) ev1.(ev_y_root) in
        mk_xevent ev1.(ev_type) t x y ev1.(ev_x_root) ev1.(ev_y_root)
          ev1.(ev_button) ev1.(ev_time) ev1.(ev_extension)
    end in
  let mask := ev_to_mask ev2.(ev_type)
                (if ev2.(ev_type) =? ButtonRelease then ev2.(ev_button) else 0) in
  [UngrabPointer; SendEvent ev2.(ev_window) mask ev2]
  ++ (if focus then [SetInputFocus ev2.(ev_window)] else []).

Definition sends (l : list action) : list action :=
  filter (fun a => match a with SendEvent _ _ _ => true | _ => false end) l.

(** The windows the events sent by a list of requests are addressed to. *)
Definition send_targets (l : list action) : list Window :=
  flat_map (fun a => match a with SendEvent t _ _ => [t] | _ => [] end) l.

(** A server with an overlay [5], true root [1], desktop window [2] (a
    child of the root found by [find_desktop_window]), the XInput opcode
    [131], and only the overlay at every position. *)
Definition overlay_only_env : env :=
  mk_env 5 1 2 (Some 131) (fun _ => [5]) (fun _ _ x y => (x, y, 0)).

End Propagate.

(* ------------------------------------------------------------------------- *)
(** * [get_x11_desktop_info]: refresh of the desktop-state cache *)

Module DesktopInfo.
Import Prop_ DesktopCache.

Definition PropertyChangeMask := Z.shiftl 1 22.

(** The [static Atom atom_current, atom_number, atom_names] of the
    function, the cache [info.x11.desktop] and the event mask conky
    selected on the root window. *)
Record info_state := mk_info_state {
  atom_current : Atom;
  atom_number : Atom;
  atom_names : Atom;
  desk : desktop;
  root_event_mask : Z
}.

(** The server: [XInternAtom(.., True)] and the reply each desktop
    property read gets; [utf8] is [ATOM(UTF8_STRING)]. *)
Record server := mk_server {
  intern_atom : string -> Atom;
  reply_of : Atom -> reply;
  utf8 : Atom
}.

Definition refresh_current (sv : server) (a : Atom) (d : desktop) : desktop :=
  get_x11_desktop_current a (sv.(reply_of) a) d.
Definition refresh_number (sv : server) (a : Atom) (d : desktop) : desktop :=
  get_x11_desktop_number a (sv.(reply_of) a) d.
Definition refresh_names (sv : server) (a : Atom) (d : desktop) : desktop :=
  get_x11_desktop_names sv.(utf8) a (sv.(reply_of) a) d.
Definition refresh_name (d : desktop) : desktop :=
  get_x11_desktop_current_name d.(all_names) d.

(** [get_x11_desktop_info(display, atom)] *)
Definition get_x11_desktop_info (sv : server) (atom : Atom) (s : info_state)
  : info_state :=
  if atom =? 0 then
    let ac := sv.(intern_atom) "_NET_CURRENT_DESKTOP" in
    let an := sv.(intern_atom) "_NET_NUMBER_OF_DESKTOPS" in
    let anames := sv.(intern_atom) "_NET_DESKTOP_NAMES" in
    let d := refresh_current sv ac s.(desk) in
    let d := refresh_number sv an d in
    let d := refresh_names sv anames d in
    let d := refresh_name d in
    let m := s.(root_event_mask) in
    let m := if Z.land m PropertyChangeMask =? 0 then Z.lor m PropertyChangeMask
             else m in
    mk_info_state ac an anames d m
  else
    let d :=
      if atom =? s.(atom_current) then
        refresh_name (refresh_current sv s.(atom_current) s.(desk))
      else if atom =? s.(atom_number) then
        refresh_number sv s.(atom_number) s.(desk)
      else if atom =? s.(atom_names) then
        refresh_name (refresh_names sv s.(atom_names) s.(desk))
      else s.(desk) in
    mk_info_state s.(atom_current) s.(atom_number) s.(atom_names) d
      s.(root_event_mask).

(** A name list: every entry followed by its NUL terminator. *)
Definition join_names (entries : list (list ascii)) : list ascii :=
  flat_map (fun e => e ++ [CStr.nul]) entries.

Definition no_nul (e : list ascii) : Prop := ~ In CStr.nul e.

(** The bytes the server sends for a string. *)
Definition bytes_of (l : list ascii) : list Z :=
  map (fun c => Z.of_N (Ascii.N_of_ascii c)) l.

End DesktopInfo.

(* ------------------------------------------------------------------------- *)
(** * Window queries: [query_x11_top_parent], [query_x11_windows],
      [query_x11_windows_at_pos] *)

Module Query.
Import Prop_ Server VRoot DesktopSearch.

(** The server as the query helpers see it: the atoms and the root
    window's properties, the true root window, [XQueryTree] (parent and
    children bottom to top, [None] when the request fails),
    [XGetWMHints(..) != NULL], [XTranslateCoordinates(d, w, root, 0, 0)]
    and [XGetWindowAttributes] ([None] when it fails). *)
Record qserver := mk_qserver {
  q_x : xstate;
  q_root : Window;
  q_tree : Window -> option (Window * list Window);
  q_hints : Window -> bool;
  q_origin : Window -> Z * Z;
  q_attrs : Window -> option wattrs
}.

(** The body of the [do { ... } while (true)] loop of
    [query_x11_top_parent]; [fuel] bounds the number of iterations
    ([None] when it runs out). *)
Fixpoint top_parent_loop (sv : qserver) (root : Window) (fuel : nat)
  (current : Window) : option Window :=
  match fuel with
  | O => None
  | S f =>
      match sv.(q_tree) current with
      | None => Some current
      | Some (parent, _) =>
          if parent =? root then Some current
          else top_parent_loop sv root f parent
      end
  end.

(** [query_x11_top_parent(display, child)] *)
Definition query_x11_top_parent (sv : qserver) (fuel : nat) (child : Window)
  : option Window :=
  match VRootWindowOfScreen sv.(q_x) sv.(q_root) with
  | Crash => None
  | Ret root =>
      if (child =? None_) || (child =? root) then Some child
      else top_parent_loop sv root fuel child
  end.

(** The [while (!queue.empty())] loop of [query_x11_windows]: [stack]
    lists the vector with its back first, so that [queue.back()] is the
    head and pushing [children[0..count-1]] in order prepends their
    reverse.  [fuel] bounds the iterations ([None] when it runs out). *)
Fixpoint dfs (sv : qserver) (fuel : nat) (stack acc : list Window)
  : option (list Window) :=
  match stack with
  | [] => Some acc
  | cur :: stack' =>
      match fuel with
      | O => None
      | S f =>
          match sv.(q_tree) cur with
          | Some (_, ch) =>
              dfs sv f (rev ch ++ stack')
                (if sv.(q_hints) cur then acc ++ [cur] else acc)
          | None => dfs sv f stack' acc
          end
      end
  end.

(** One fast path: [x11_atom_window_list] of the root for an atom that
    exists. *)
Definition client_list (sv : qserver) (name : string) : list Window :=
  let a := sv.(q_x).(intern) name in
  if a =? 0 then [] else x11_atom_window_list sv.(q_x) a.

(** [query_x11_windows(display, eager)] *)
Definition query_x11_windows (sv : qserver) (eager : bool) (fuel : nat)
  : option (list Window) :=
  match client_list sv "_NET_CLIENT_LIST_STACKING" with
  | _ :: _ as r => Some r
  | [] =>
      match client_list sv "_NET_CLIENT_LIST" with
      | _ :: _ as r => Some r
      | [] =>
          if eager then
            match VRootWindowOfScreen sv.(q_x) sv.(q_root) with
            | Ret v => dfs sv fuel [v] []
            | Crash => None
            end
          else Some []
      end
  end.

(** The test of [query_x11_windows_at_pos] for a window at [(px, py)]
    with attributes [a] (the sums do not overflow at screen sizes). *)
Definition covers (pos : Z * Z) (origin : Z * Z) (a : wattrs) : bool :=
  let '(x, y) := pos in
  let '(px, py) := origin in
  (px <=? x) && (py <=? y) && (x <=? px + a.(a_width)) && (y <=? py + a.(a_height)).

(** The [for] loop of [query_x11_windows_at_pos]: [attr] is the one
    [XWindowAttributes] variable, which keeps the values of the last
    successful [XGetWindowAttributes] when a call fails. *)
Fixpoint at_pos_loop (sv : qserver) (pos : Z * Z) (pred : wattrs -> bool)
  (ws : list Window) (attr : wattrs) : list Window :=
  match ws with
  | [] => []
  | w :: ws' =>
      let a := match sv.(q_attrs) w with Some a => a | None => attr end in
      (if covers pos (sv.(q_origin) w) a && pred a then [w] else [])
      ++ at_pos_loop sv pos pred ws' a
  end.

(** [query_x11_windows_at_pos(display, pos, predicate, eager)]; [attr0]
    is the uninitialised content of [attr]. *)
Definition query_x11_windows_at_pos (sv : qserver) (pos : Z * Z)
  (pred : wattrs -> bool) (eager : bool) (fuel : nat) (attr0 : wattrs)
  : option (list Window) :=
  option_map (fun ws => at_pos_loop sv pos pred ws attr0)
    (query_x11_windows sv eager fuel).

(** [w] is reached from [a] by following parents. *)
Inductive ancestor (sv : qserver) : Window -> Window -> Prop :=
  | anc_refl w : ancestor sv w w
  | anc_step w p ch a : sv.(q_tree) w = Some (p, ch) -> ancestor sv p a ->
      ancestor sv w a.

(** [w] is reached from [a] by following children. *)
Inductive descendant (sv : qserver) : Window -> Window -> Prop :=
  | desc_refl w : descendant sv w w
  | desc_step a p ch c w : sv.(q_tree) a = Some (p, ch) -> In c ch ->
      descendant sv c w -> descendant sv a w.

(** The windows on the parent chain from [w], up to and excluding
    [root], every [XQueryTree] on the way succeeding. *)
Inductive parent_chain (sv : qserver) (root : Window) : Window -> list Window -> Prop :=
  | pc_last w ch : sv.(q_tree) w = Some (root, ch) -> w <> root ->
      parent_chain sv root w [w]
  | pc_step w p ch l : sv.(q_tree) w = Some (p, ch) -> w <> root -> p <> root ->
      parent_chain sv root p l -> parent_chain sv root w (w :: l).

(** A root [1] with children [2] and [3] (bottom to top); only [3] has
    WM hints. *)
Definition two_clients : qserver :=
  mk_qserver (mk_xstate (fun _ => 0) (fun _ => None)) 1
    (fun w => if w =? 1 then Some (0, [2; 3])
              else if (w =? 2) || (w =? 3) then Some (1, []) else None)
    (fun w => w =? 3) (fun w => (w * 10, 0))
    (fun w => if w =? 3 then Some (mk_wattrs IsViewable false 50 50) else None).

(** A root [1], a frame [4] under it and a client [5] in the frame. *)
Definition framed_client : qserver :=
  mk_qserver (mk_xstate (fun _ => 0) (fun _ => None)) 1
    (fun w => if w =? 5 then Some (4, []) else if w =? 4 then Some (1, [5])
              else if w =? 1 then Some (0, [4]) else None)
    (fun _ => false) (fun _ => (0, 0)) (fun _ => None).

End Query.

(* ------------------------------------------------------------------------- *)
(** * [set_transparent_background] and [get_argb_visual] *)

Module Transparency.
Import Server.

(** The background requests: [do_set_background(w, alpha)] and
    [XSetWindowBackgroundPixmap(display, w, ParentRelative)]. *)
Inductive bg_request :=
  | SetBackground (w : Window) (alpha : Z)
  | SetParentRelative (w : Window).

(** The pseudo-transparency [for] loop with [n] of its 50 iterations
    left.  [parent_of] is the parent [XQueryTree] writes back; [None]
    when the request fails, which leaves [parent] as it was. *)
Fixpoint pseudo_loop (root : Window) (parent_of : Window -> option Window)
  (n : nat) (parent : Window) : list bg_request :=
  match n with
  | O => []
  | S n' =>
      if parent =? root then []
      else SetParentRelative parent
           :: pseudo_loop root parent_of n'
                (match parent_of parent with Some p => p | None => parent end)
  end.

(** The conversion of an [int] to the [uint8_t] parameter [alpha]. *)
Definition to_uint8 (v : Z) : Z := v mod 256.

(** [set_transparent_background(win)] built with [BUILD_ARGB]:
    [have_argb] is [have_argb_visual], [set_transparent] and [argb_value]
    the settings [own_window_transparent] and [own_window_argb_value],
    [root] is [RootWindow(display, screen)]. *)
Definition set_transparent_background (have_argb set_transparent : bool)
  (argb_value : Z) (root : Window) (parent_of : Window -> option Window)
  (win : Window) : list bg_request :=
  if have_argb then
    [SetBackground win (to_uint8 (if set_transparent then 0 else argb_value))]
  else if set_transparent then pseudo_loop root parent_of 50 win
  else [SetBackground win 0].

(** The windows from [w] up to and excluding [root], each [XQueryTree]
    on the way succeeding. *)
Inductive up_chain (root : Window) (parent_of : Window -> option Window)
  : Window -> list Window -> Prop :=
  | up_last w : parent_of w = Some root -> w <> root -> up_chain root parent_of w [w]
  | up_step w p l : parent_of w = Some p -> w <> root ->
      up_chain root parent_of p l -> up_chain root parent_of w (w :: l).

(** The fields of an [XVisualInfo] the search reads. *)
Record visual_info := mk_visual_info {
  vi_visual : Z;
  vi_depth : Z;
  vi_red_mask : Z;
  vi_green_mask : Z;
  vi_blue_mask : Z
}.

Definition argb_ok (v : visual_info) : bool :=
  (v.(vi_depth) =? 32) && (v.(vi_red_mask) =? 16711680)
  && (v.(vi_green_mask) =? 65280) && (v.(vi_blue_mask) =? 255).

(** The [for] loop over [visual_list[0 .. nxvisuals-1]]. *)
Fixpoint argb_loop (l : list visual_info) : option (Z * Z) :=
  match l with
  | [] => None
  | v :: l' => if argb_ok v then Some (v.(vi_visual), v.(vi_depth)) else argb_loop l'
  end.

(** [get_argb_visual(&visual, &depth)]: the return value and the final
    [*visual] and [*depth] (initially [visual0] and [depth0]). *)
Definition get_argb_visual (l : list visual_info) (visual0 depth0 : Z) : Z * Z * Z :=
  match argb_loop l with
  | Some (v, d) => (1, v, d)
  | None => (0, visual0, depth0)
  end.

End Transparency.

(* ------------------------------------------------------------------------- *)
(** * [x11_error_handler] (built without xcb-errors) *)

Module ErrorHandler.
Import CStr.

Definition digit_char (d : Z) : ascii := Ascii.ascii_of_nat (48 + Z.to_nat d).

(** Decimal digits of a non-negative number, most significant first,
    prepended to [acc]; [fuel] is more than the digits of a 64-bit value. *)
Fixpoint dec_digits (fuel : nat) (n : Z) (acc : list ascii) : list ascii :=
  match fuel with
  | O => acc
  | S f =>
      let acc' := digit_char (n mod 10) :: acc in
      if n <? 10 then acc' else dec_digits f (n / 10) acc'
  end.

(** The text of [%d] or [%i]. *)
Definition dec (n : Z) : list ascii :=
  if n <? 0 then "-"%char :: dec_digits 20 (- n) [] else dec_digits 20 n [].

Definition NAMES : list (list ascii) :=
  map of_string
    ["request"; "value"; "window"; "pixmap"; "atom"; "cursor"; "font";
     "match"; "drawable"; "access"; "alloc"; "colormap"; "G context";
     "ID choice"; "name"; "length"; "implementation"]%string.

(** [error_name] for [err->error_code] (an [unsigned char]). *)
Definition error_name (code : Z) : list ascii :=
  if (code >? 0) && (code <? 17) then nth (Z.to_nat code) NAMES []
  else snprintf_s 4 (dec code).

(** [code_description] for [err->request_code] and [err->minor_code]. *)
Definition code_description (request_code minor_code : Z) : list ascii :=
  snprintf_s 37
    (of_string "error code: [major: " ++ dec request_code
     ++ of_string ", minor: " ++ dec minor_code ++ of_string "]").

(** The core protocol error codes of X.h ([BadRequest] = 1, ...,
    [BadImplementation] = 17), keyed by the word [NAMES] uses for each. *)
Definition x_error_codes : list (string * Z) :=
  [("request", 1); ("value", 2); ("window", 3); ("pixmap", 4); ("atom", 5);
   ("cursor", 6); ("font", 7); ("match", 8); ("drawable", 9); ("access", 10);
   ("alloc", 11); ("colormap", 12); ("G context", 13); ("ID choice", 14);
   ("name", 15); ("length", 16); ("implementation", 17)]%string.

Definition code_of_name (n : list ascii) : option Z :=
  option_map snd
    (find (fun p => String.eqb (fst p) (string_of_list_ascii n)) x_error_codes).

End ErrorHandler.

(* ------------------------------------------------------------------------- *)
(** * i8k.cc: [update_i8k] and the field printers *)

Module I8kProc.
Import CStr.

Definition space : ascii := " "%char.

(** [strspn(s, " ")] of glibc's [strtok]: [None] when the scan runs past
    the end of the 128-byte buffer. *)
Fixpoint strtok_skip (s : list ascii) : option (list ascii) :=
  match s with
  | [] => None
  | c :: s' => if Ascii.eqb c space then strtok_skip s' else Some s
  end.

(** The token up to the next delimiter (overwritten by a NUL, the saved
    position moving past it) or up to the terminating NUL (the saved
    position staying on it). *)
Fixpoint strtok_take (s : list ascii) : option (list ascii * list ascii) :=
  match s with
  | [] => None
  | c :: s' =>
      if Ascii.eqb c nul then Some ([], s)
      else if Ascii.eqb c space then Some ([], s')
      else
        match strtok_take s' with
        | Some (t, r) => Some (c :: t, r)
        | None => None
        end
  end.

(** [strtok(.., " ")] from the saved position [s]: the token ([None] for
    NULL) and the new saved position; [None] when the scan would read
    past the buffer. *)
Definition strtok (s : list ascii) : option (cptr * list ascii) :=
  match strtok_skip s with
  | None => None
  | Some s1 =>
      match s1 with
      | [] => None
      | c :: _ =>
          if Ascii.eqb c nul then Some (None, s1)
          else
            match strtok_take s1 with
            | Some (t, r) => Some (Some t, r)
            | None => None
            end
      end
  end.

(** [n] successive [strtok] calls. *)
Fixpoint strtok_n (n : nat) (s : list ascii) : option (list cptr) :=
  match n with
  | O => Some []
  | S n' =>
      match strtok s with
      | None => None
      | Some (t, r) => option_map (cons t) (strtok_n n' r)
      end
  end.

(** [i8k_procbuf] after [memset(.., 0, 128)] and [fread(.., 128, fp)] of a
    file with contents [content]. *)
Definition read_buf (content : list ascii) : list ascii :=
  firstn 128 content ++ repeat nul (128 - List.length content).

(** [update_i8k()]: [file] is [None] when [fopen] fails.  The fields are,
    in order, version, bios, serial, cpu_temp, left_fan_status,
    right_fan_status, left_fan_rpm, right_fan_rpm, ac_status and
    buttons_status; [None] in the result stands for a scan past the
    buffer. *)
Definition update_i8k (file : option (list ascii)) (fields : list cptr)
  : Z * option (list cptr) :=
  match file with
  | None => (1, Some fields)
  | Some content => (0, strtok_n 10 (read_buf content))
  end.


(** [sscanf(s, "%d", &v)]: the value converted, [None] when no digit
    follows the white space and optional sign ([v] then unchanged). *)
Definition sscanf_d (s : list ascii) : option Z :=
  let s' := skip_spaces (take_cstr s) in
  let rest :=
    match s' with
    | c :: r => if Ascii.eqb c "-"%char || Ascii.eqb c "+"%char then r else s'
    | [] => []
    end in
  match rest with
  | c :: _ => match digit_value c with Some _ => Some (atoi s) | None => None end
  | [] => None
  end.

(** [print_i8k_ac_status]: the buffer [p] after the call, [ac0] the
    uninitialised [ac_status]; [None] for [sscanf] on a null field. *)
Definition print_i8k_ac_status (p_max_size : Z) (field : cptr) (ac0 : Z)
  (p : list ascii) : option (list ascii) :=
  match field with
  | None => None
  | Some s =>
      let v := match sscanf_d s with Some v => v | None => ac0 end in
      let p := if v =? -1 then snprintf_s p_max_size (of_string "disabled (read i8k docs)")
               else p in
      let p := if v =? 0 then snprintf_s p_max_size (of_string "off") else p in
      let p := if v =? 1 then snprintf_s p_max_size (of_string "on") else p in
      Some p
  end.

(** The maximal runs of non-space characters of [s], in order. *)
Fixpoint words (s : list ascii) : list (list ascii) :=
  match s with
  | [] => []
  | c :: s' =>
      if Ascii.eqb c space then words s'
      else
        match s' with
        | d :: _ =>
            if Ascii.eqb d space then [c] :: words s'
            else match words s' with
                 | w :: ws => (c :: w) :: ws
                 | [] => [[c]]
                 end
        | [] => [[c]]
        end
  end.

(** The [n] fields filled from a list of tokens: the tokens in order,
    NULL for the fields left over. *)
Definition fields_of (n : nat) (ws : list (list ascii)) : list cptr :=
  map Some (firstn n ws) ++ repeat None (n - List.length ws).

Definition no_nul (s : list ascii) : Prop := ~ In nul s.

End I8kProc.

(* ------------------------------------------------------------------------- *)
(** * x11.cc: the input masks selected at the end of [x11_init_window] *)

(** Built with [OWN_WINDOW]; the build switches [BUILD_XINPUT] and
    [BUILD_MOUSE_EVENTS], the two settings read from Lua, the answers of
    [XQueryExtension] and [XIQueryVersion], and the [XI_LASTEVENT] of the
    XInput headers are inputs. *)
Module InputSetup.
Import Server Propagate DesktopInfo.

Definition ExposureMask := Z.shiftl 1 15.
Definition StructureNotifyMask := Z.shiftl 1 17.
Definition XI_HierarchyChanged := 11.

(** [XISetMask(ptr, event)]: [ptr[event >> 3] |= 1 << (event & 7)]. *)
Definition XISetMask (m : list Z) (ev : Z) : list Z :=
  let i := Z.to_nat (Z.shiftr ev 3) in
  Struts.set_slot m i (Z.lor (nth i m 0) (Z.shiftl 1 (Z.land ev 7))).

(** [XIClearMask(ptr, event)]: [ptr[event >> 3] &= ~(1 << (event & 7))]. *)
Definition XIClearMask (m : list Z) (ev : Z) : list Z :=
  let i := Z.to_nat (Z.shiftr ev 3) in
  Struts.set_slot m i (Z.land (nth i m 0) (Z.lnot (Z.shiftl 1 (Z.land ev 7)))).

(** [XIMaskIsSet(ptr, event)]. *)
Definition XIMaskIsSet (m : list Z) (ev : Z) : bool :=
  Z.testbit (nth (Z.to_nat (Z.shiftr ev 3)) m 0) (Z.land ev 7).

Record input_cfg := mk_input_cfg {
  build_xinput : bool;            (* BUILD_XINPUT *)
  build_mouse_events : bool;      (* BUILD_MOUSE_EVENTS *)
  own_window_setting : bool;      (* own_window.get(l) *)
  own : bool;                     (* the parameter [own] *)
  type_is_desktop : bool;         (* own_window_type.get(l) == DESKTOP *)
  has_xinput_extension : bool;    (* XQueryExtension succeeds *)
  xi2_supported : bool;           (* XIQueryVersion returns 0 *)
  XI_LASTEVENT : Z }.

(** One call [XISelectEvents(display, w, ev_masks, 1)] with the mask bytes. *)
Inductive xi_select := XISelectEvents (w : Window) (mask : list Z).

(** The XInput selections made and the final [input_mask] passed to
    [XSelectInput]. *)
Definition input_setup (cfg : input_cfg) (root win : Window)
    : list xi_select * Z :=
  let input_mask := Z.lor ExposureMask PropertyChangeMask in
  let input_mask :=
    if own_window_setting cfg then
      let m := Z.lor input_mask StructureNotifyMask in
      if negb (build_xinput cfg) then Z.lor m (Z.lor ButtonPressMask ButtonReleaseMask)
      else m
    else input_mask in
  let '(selects, xinput_ok) :=
    if build_xinput cfg && has_xinput_extension cfg && xi2_supported cfg then
      let mask_size := Z.to_nat ((XI_LASTEVENT cfg + 7) / 8) in
      let mask_bytes := repeat 0 mask_size in
      let mask_bytes := XISetMask mask_bytes XI_HierarchyChanged in
      let mask_bytes :=
        if build_mouse_events cfg then XISetMask mask_bytes XI_Motion else mask_bytes in
      let mask_bytes :=
        if negb (own cfg) then
          XISetMask (XISetMask mask_bytes XI_ButtonPress) XI_ButtonRelease
        else mask_bytes in
      let root_select := XISelectEvents root mask_bytes in
      if own cfg then
        let mask_bytes :=
          if build_mouse_events cfg then XIClearMask mask_bytes XI_Motion else mask_bytes in
        let mask_bytes := XISetMask (XISetMask mask_bytes XI_ButtonPress) XI_ButtonRelease in
        ([root_select; XISelectEvents win mask_bytes], true)
      else ([root_select], true)
    else ([], false) in
  let input_mask :=
    if build_mouse_events cfg && negb xinput_ok && own cfg && negb (type_is_desktop cfg)
    then Z.lor input_mask (Z.lor PointerMotionMask (Z.lor EnterWindowMask LeaveWindowMask))
    else input_mask in
  (selects, input_mask).

End InputSetup.

(* ========================================================================= *)
(** * Properties *)

(* ------------------------------------------------------------------------- *)
(** ** i8k fan status *)

Module I8kFacts.
Import CStr I8k.

Lemma fan_status_index_range (status : cptr) :
  0 <= fan_status_index status <= 3.
Proof.
  unfold fan_status_index.
  destruct status as [s|]; simpl.
  - destruct (atoi s <? 0) eqn:Hlt; destruct (atoi s >? 3) eqn:Hgt; simpl;
      lia.
  - lia.
Qed.

Lemma fan_status_index_error (status : cptr) :
  (status = None \/ (exists s, status = Some s /\ (atoi s < 0 \/ atoi s > 3))) ->
  fan_status_index status = 3.
Proof.
  intros [-> | [s [-> Hr]]]; unfold fan_status_index; [reflexivity|].
  destruct Hr as [Hr|Hr].
  - apply Z.ltb_lt in Hr. rewrite Hr. reflexivity.
  - assert (H : (atoi s >? 3) = true) by (apply Z.gtb_lt; lia).
    rewrite H, orb_true_r. reflexivity.
Qed.

(** C10: whatever the status pointer, [print_i8k_fan_status] reads
    [status_arr] at an index in [0, 3] (never out of bounds) and prints one
    of "off", "low", "high", "error"; a null status or one that [atoi]
    parses outside [0, 3] prints "error". *)
Theorem print_i8k_fan_status_total (p_max_size : Z) (status : cptr) :
  0 <= fan_status_index status <= 3 /\
  exists s,
    fan_status_string status = Some s /\
    (s = of_string "off" \/ s = of_string "low" \/ s = of_string "high"
     \/ s = of_string "error") /\
    print_i8k_fan_status p_max_size status = Some (snprintf_s p_max_size s) /\
    ((status = None \/ (exists str, status = Some str /\ (atoi str < 0 \/ atoi str > 3))) ->
     s = of_string "error").
Proof.
  pose proof (fan_status_index_range status) as Hr.
  split; [exact Hr|].
  unfold print_i8k_fan_status, fan_status_string.
  assert (Hc : fan_status_index status = 0 \/ fan_status_index status = 1 \/
               fan_status_index status = 2 \/ fan_status_index status = 3) by lia.
  destruct Hc as [H|[H|[H|H]]]; rewrite H; simpl;
    eexists; (split; [reflexivity|]);
    (split; [tauto|]); (split; [reflexivity|]);
    intros He; rewrite (fan_status_index_error status He) in H;
    try discriminate; reflexivity.
Qed.

End I8kFacts.

(* ------------------------------------------------------------------------- *)
(** ** Desktop-state cache *)

Module DesktopCacheFacts.
Import CStr Prop_ DesktopCache.

Lemma cardinal_mismatch_not_ok (r : reply) :
  cardinal_mismatch r -> cardinal_ok r = false.
Proof.
  unfold cardinal_mismatch, cardinal_ok.
  intros H; repeat rewrite andb_false_iff; lia.
Qed.

Lemma names_mismatch_not_ok (utf8 : Atom) (r : reply) :
  names_mismatch utf8 r -> names_ok utf8 r = false.
Proof.
  unfold names_mismatch, names_ok.
  intros H; repeat rewrite andb_false_iff; lia.
Qed.

Lemma current_mismatch_unchanged atom r d :
  cardinal_mismatch r -> get_x11_desktop_current atom r d = d.
Proof.
  intros H; unfold get_x11_desktop_current.
  rewrite (cardinal_mismatch_not_ok r H). destruct (atom =? None_); reflexivity.
Qed.

Lemma number_mismatch_unchanged atom r d :
  cardinal_mismatch r -> get_x11_desktop_number atom r d = d.
Proof.
  intros H; unfold get_x11_desktop_number.
  rewrite (cardinal_mismatch_not_ok r H). destruct (atom =? None_); reflexivity.
Qed.

Lemma names_mismatch_unchanged utf8 atom r d :
  names_mismatch utf8 r -> get_x11_desktop_names utf8 atom r d = d.
Proof.
  intros H; unfold get_x11_desktop_names.
  rewrite (names_mismatch_not_ok utf8 r H). destruct (atom =? None_); reflexivity.
Qed.

(** C2: each of the three reads leaves the cache untouched when its reply
    fails or mismatches; in particular after a read [r1] followed by a
    mismatched read [r2], the index, the count and the name list are those
    left by [r1]. *)
Theorem desktop_reads_keep_last_good
  (utf8 a_cur a_num a_names : Atom) (r1 r2 n1 n2 : reply) (d : desktop) :
  cardinal_mismatch r2 -> names_mismatch utf8 n2 ->
  (forall d', get_x11_desktop_current a_cur r2 d' = d') /\
  (forall d', get_x11_desktop_number a_num r2 d' = d') /\
  (forall d', get_x11_desktop_names utf8 a_names n2 d' = d') /\
  current (get_x11_desktop_current a_cur r2 (get_x11_desktop_current a_cur r1 d))
    = current (get_x11_desktop_current a_cur r1 d) /\
  number (get_x11_desktop_number a_num r2 (get_x11_desktop_number a_num r1 d))
    = number (get_x11_desktop_number a_num r1 d) /\
  all_names (get_x11_desktop_names utf8 a_names n2
               (get_x11_desktop_names utf8 a_names n1 d))
    = all_names (get_x11_desktop_names utf8 a_names n1 d).
Proof.
  intros Hc Hn.
  repeat split; intros;
    rewrite ?(current_mismatch_unchanged _ _ _ Hc),
            ?(number_mismatch_unchanged _ _ _ Hc),
            ?(names_mismatch_unchanged _ _ _ _ Hn); reflexivity.
Qed.

(** A valid read of index 3 (stored 2), then a read answered with the
    wrong type; likewise for the count and the name list. *)
Lemma desktop_reads_keep_last_good_witness :
  let good := mk_reply 0 XA_CARDINAL 32 1 (Some [2]) in
  let bad := mk_reply 0 XA_WINDOW 32 0 (Some []) in
  let good_n := mk_reply 0 300 8 2 (Some [65; 0]) in
  let bad_n := mk_reply 0 31 8 2 (Some [65; 0]) in
  let d := mk_desktop 1 1 [] [] in
  (current (get_x11_desktop_current 10 bad (get_x11_desktop_current 10 good d))
     = 3) /\
  (all_names (get_x11_desktop_names 300 12 bad_n
                (get_x11_desktop_names 300 12 good_n d))
     = [Ascii.ascii_of_nat 65; nul]).
Proof.
  intros good bad good_n bad_n d.
  destruct (desktop_reads_keep_last_good 300 10 11 12 good bad good_n bad_n d)
    as [_ [_ [_ [Hc [_ Hn]]]]].
  - unfold cardinal_mismatch; simpl; lia.
  - unfold names_mismatch; simpl; lia.
  - split; [rewrite Hc | rewrite Hn]; vm_compute; reflexivity.
Defined.

(** C9: with the name list "Desk1\0Desk2\0Desk3\0" cached and current
    index 2, the derived current desktop name is "Desk2". *)
Theorem desktop_current_name_desk2 (n : Z) (old : list ascii) :
  name (get_x11_desktop_current_name three_desks
          (mk_desktop 2 n three_desks old)) = of_string "Desk2".
Proof. reflexivity. Qed.

End DesktopCacheFacts.

(* ------------------------------------------------------------------------- *)
(** ** Strut values *)

Module StrutsFacts.
Import Struts.

Lemma set_slot_nth (l : list Z) (k : nat) (v : Z) (k' : nat) :
  nth_error (set_slot l k v) k' =
  if Nat.eqb k k' then option_map (fun _ => v) (nth_error l k)
  else nth_error l k'.
Proof.
  revert k k'; induction l as [|x l IH]; intros [|k] [|k']; simpl;
    try reflexivity.
  - destruct (Nat.eqb k k'); reflexivity.
  - apply IH.
Qed.

Lemma set_slot_ok dw dh s k v :
  slots_ok dw dh s -> 0 <= v <= slot_bound dw dh k ->
  slots_ok dw dh (set_slot s k v).
Proof.
  intros Hs Hv k' v'. rewrite set_slot_nth.
  destruct (Nat.eqb_spec k k') as [<-|Hne].
  - destruct (nth_error s k); simpl; intros H; inversion H; subst; exact Hv.
  - apply Hs.
Qed.

Lemma array_ok dw dh : 0 <= dw -> 0 <= dh -> slots_ok dw dh array.
Proof.
  intros Hw Hh k v H.
  assert (Hz : v = 0).
  { unfold array in H. apply nth_error_In, repeat_spec in H. exact H. }
  subst v. unfold slot_bound; destruct (horizontal_slot k); lia.
Qed.

Lemma clamp_range v lo hi : lo <= hi -> lo <= clamp v lo hi <= hi.
Proof. unfold clamp; intros; destruct (v <? lo) eqn:?; destruct (hi <? v) eqn:?; lia. Qed.

Lemma sub_clamp_range v m : 0 <= m -> 0 <= m - clamp v 0 m <= m.
Proof. intros; pose proof (clamp_range v 0 m); lia. Qed.

Local Ltac slot_step :=
  apply set_slot_ok; [| unfold slot_bound; simpl;
    first [ apply clamp_range | apply sub_clamp_range ]; assumption ].

Lemma reserves_ok g dw dh s :
  0 <= dw -> 0 <= dh -> slots_ok dw dh s ->
  slots_ok dw dh (reserve_top g dw dh s) /\
  slots_ok dw dh (reserve_bottom g dw dh s) /\
  slots_ok dw dh (reserve_left g dw dh s) /\
  slots_ok dw dh (reserve_right g dw dh s).
Proof.
  intros Hw Hh Hs.
  unfold reserve_top, reserve_bottom, reserve_left, reserve_right.
  refine (conj _ (conj _ (conj _ _))); repeat slot_step; exact Hs.
Qed.

Lemma compute_sizes_ok align_code inp wide s wide' :
  0 <= display_width inp -> 0 <= display_height inp ->
  compute_sizes align_code inp wide = (Some s, wide') ->
  slots_ok (display_width inp) (display_height inp) s.
Proof.
  intros Hw Hh.
  pose proof (array_ok _ _ Hw Hh) as H0.
  destruct (reserves_ok (geom inp) _ _ array Hw Hh H0) as (Ht & Hb & Hl & Hr).
  unfold compute_sizes.
  destruct (has_strut_atom inp); [|discriminate]; simpl.
  destruct (runtime_tweaks inp && cutout_wm (wm inp)).
  - destruct (Z.land (align_code (align inp)) 5 =? 0); [discriminate|].
    destruct (match wide with Some b => b | None => _ end);
      destruct (align inp); intros E; inversion E; subst; assumption.
  - repeat match goal with
           | |- context [if ?c then _ else _] => destruct c
           end; intros E; inversion E; subst; assumption.
Qed.

Lemma firstn_ok dw dh s n : slots_ok dw dh s -> slots_ok dw dh (firstn n s).
Proof.
  intros Hs k v Hk. apply Hs.
  destruct (Nat.lt_ge_cases k n) as [Hlt|Hge].
  - rewrite nth_error_firstn in Hk. destruct (Nat.ltb_spec k n); [exact Hk|lia].
  - rewrite nth_error_firstn in Hk. destruct (Nat.ltb_spec k n); [lia|discriminate].
Qed.

(** C3: for any geometry, display size, alignment (with any numeric
    encoding), window manager and runtime-tweak setting, every value of
    every strut property written by [set_struts] lies in
    [0, display_width] for the horizontal slots (LEFT, RIGHT and the
    TOP/BOTTOM start/end x) and in [0, display_height] for the vertical
    ones. *)
Theorem set_struts_clamped align_code inp wide :
  0 <= display_width inp -> 0 <= display_height inp ->
  forall w, In w (fst (set_struts align_code inp wide)) ->
  forall k v, nth_error (write_values w) k = Some v ->
  0 <= v <= slot_bound (display_width inp) (display_height inp) k.
Proof.
  intros Hw Hh w Hin.
  unfold set_struts in Hin.
  destruct (compute_sizes align_code inp wide) as [[s|] wide'] eqn:E;
    [|contradiction].
  pose proof (compute_sizes_ok _ _ _ _ _ Hw Hh E) as Hs.
  destruct (has_strut_partial_atom inp); simpl in Hin;
    repeat destruct Hin as [<-|Hin]; try contradiction;
    first [ exact (firstn_ok _ _ _ 4 Hs) | exact Hs ].
Qed.

(** A thin window at the left edge of a 1920x1080 display under a window
    manager without cutout support. *)
Lemma set_struts_clamped_witness :
  let inp := mk_strut_input true true true wm_other TOP_LEFT
               (mk_geometry 0 0 200 1000) 1920 1080 in
  0 <= display_width inp /\ 0 <= display_height inp /\
  fst (set_struts (fun _ => 5) inp None)
    = [WriteStrut [200; 0; 0; 0];
       WriteStrutPartial [200; 0; 0; 0; 0; 1000; 0; 0; 0; 0; 0; 0]] /\
  (forall w, In w (fst (set_struts (fun _ => 5) inp None)) ->
   forall k v, nth_error (write_values w) k = Some v ->
   0 <= v <= slot_bound (display_width inp) (display_height inp) k).
Proof.
  intros inp.
  split; [simpl; lia|]. split; [simpl; lia|]. split; [vm_compute; reflexivity|].
  apply set_struts_clamped; simpl; lia.
Defined.

Lemma compute_sizes_shape align_code inp wide s wide' :
  compute_sizes align_code inp wide = (Some s, wide') ->
  s = array \/
  s = reserve_top (geom inp) (display_width inp) (display_height inp) array \/
  s = reserve_bottom (geom inp) (display_width inp) (display_height inp) array \/
  s = reserve_left (geom inp) (display_width inp) (display_height inp) array \/
  s = reserve_right (geom inp) (display_width inp) (display_height inp) array.
Proof.
  unfold compute_sizes.
  destruct (has_strut_atom inp); [|discriminate]; simpl.
  destruct (runtime_tweaks inp && cutout_wm (wm inp)).
  - destruct (Z.land (align_code (align inp)) 5 =? 0); [discriminate|].
    destruct (match wide with Some b => b | None => _ end);
      destruct (align inp); intros E; inversion E; subst; tauto.
  - repeat match goal with
           | |- context [if ?c then _ else _] => destruct c
           end; intros E; inversion E; subst; tauto.
Qed.

Lemma shapes_one_side g dw dh :
  one_side array /\ one_side (reserve_top g dw dh array) /\
  one_side (reserve_bottom g dw dh array) /\ one_side (reserve_left g dw dh array) /\
  one_side (reserve_right g dw dh array).
Proof.
  refine (conj _ (conj _ (conj _ (conj _ _))));
    [exists LEFT|exists TOP|exists BOTTOM|exists LEFT|exists RIGHT];
    intros k v H Hk;
    unfold array, reserve_top, reserve_bottom, reserve_left, reserve_right in H;
    cbn in H;
    do 12 (destruct k as [|k];
           [cbn in H; inversion H; subst; first [reflexivity | contradiction]|]);
    cbn in H; destruct k; discriminate.
Qed.

Lemma firstn_one_side (s : list Z) (n : nat) : one_side s -> one_side (firstn n s).
Proof.
  intros [side Hs]. exists side. intros k v Hk. apply Hs.
  rewrite nth_error_firstn in Hk. destruct (Nat.ltb k n); [exact Hk|discriminate].
Qed.

(** Every strut property [set_struts] writes reserves space along one
    side of the screen only: the width and the range of every other side
    are 0. *)
Theorem set_struts_one_side align_code inp wide :
  forall w, In w (fst (set_struts align_code inp wide)) -> one_side (write_values w).
Proof.
  intros w Hin. unfold set_struts in Hin.
  destruct (compute_sizes align_code inp wide) as [[s|] wide'] eqn:E;
    [|contradiction].
  assert (Hs : one_side s).
  { destruct (shapes_one_side (geom inp) (display_width inp) (display_height inp))
      as (H0 & Ht & Hb & Hl & Hr).
    destruct (compute_sizes_shape _ _ _ _ _ E) as [->|[->|[->|[->| ->]]]];
      assumption. }
  destruct (has_strut_partial_atom inp); simpl in Hin;
    repeat destruct Hin as [<-|Hin]; try contradiction;
    first [ exact (firstn_one_side s 4 Hs) | exact Hs ].
Qed.

Lemma set_struts_one_side_witness :
  let inp := mk_strut_input true true true wm_other TOP_LEFT
               (mk_geometry 0 0 200 1000) 1920 1080 in
  one_side [200; 0; 0; 0; 0; 1000; 0; 0; 0; 0; 0; 0].
Proof.
  intros inp.
  apply (set_struts_one_side (fun _ => 5) inp None
           (WriteStrutPartial [200; 0; 0; 0; 0; 1000; 0; 0; 0; 0; 0; 0])).
  vm_compute. right; left; reflexivity.
Defined.

(** The cached [is_wide_window], once set, is never changed; before that
    only the cutout branch sets it, from the window's shape and i3. *)
Theorem set_struts_wide_cache align_code inp (b : bool) :
  snd (set_struts align_code inp (Some b)) = Some b /\
  (snd (set_struts align_code inp None) = None \/
   snd (set_struts align_code inp None) =
     Some ((gwidth (geom inp) >? gheight (geom inp)) || is_i3 (wm inp))).
Proof.
  unfold set_struts, compute_sizes.
  destruct (has_strut_atom inp); simpl; [|split; [reflexivity|left; reflexivity]].
  destruct (runtime_tweaks inp && cutout_wm (wm inp)).
  - destruct (Z.land (align_code (align inp)) 5 =? 0);
      [split; [reflexivity|left; reflexivity]|].
    destruct (has_strut_partial_atom inp); split; [reflexivity|right; reflexivity| reflexivity|right; reflexivity].
  - destruct (has_strut_partial_atom inp); split; try reflexivity; left; reflexivity.
Qed.

(** [set_struts] writes nothing exactly when the [_NET_WM_STRUT] atom is
    missing or when, in the cutout branch, the alignment code has neither
    bit 0 nor bit 2 set; when it writes [_NET_WM_STRUT_PARTIAL], that comes
    second and [_NET_WM_STRUT] carries its first four values. *)
Theorem set_struts_writes align_code inp wide :
  let ws := fst (set_struts align_code inp wide) in
  (ws = [] <->
   has_strut_atom inp = false \/
   (runtime_tweaks inp && cutout_wm (wm inp) = true /\
    Z.land (align_code (align inp)) 5 = 0)) /\
  (forall s, In (WriteStrutPartial s) ws ->
   ws = [WriteStrut (firstn 4 s); WriteStrutPartial s]).
Proof.
  intros ws. subst ws. unfold set_struts, compute_sizes.
  destruct (has_strut_atom inp); simpl;
    [|split; [tauto|intros s []]].
  destruct (runtime_tweaks inp && cutout_wm (wm inp)).
  - destruct (Z.eqb_spec (Z.land (align_code (align inp)) 5) 0) as [E|E].
    + split; [tauto|intros s []].
    + destruct (has_strut_partial_atom inp); simpl;
        (split; [split; [discriminate|intros [H|[_ H]]; [discriminate|contradiction]]|]);
        intros s H; repeat destruct H as [H|H]; try discriminate; try contradiction;
        inversion H; subst; reflexivity.
  - destruct (has_strut_partial_atom inp); simpl;
      (split; [split; [discriminate|intros [H|[H _]]; discriminate]|]);
      intros s H; repeat destruct H as [H|H]; try discriminate; try contradiction;
      inversion H; subst; reflexivity.
Qed.

End StrutsFacts.

(* ------------------------------------------------------------------------- *)
(** ** Work area *)

Module WorkareaFacts.
Import Workarea.

(** C5, as stated, fails: a head reported outside the display becomes the
    work area as it is, so for a valid head index the work area need not
    lie within the display bounds. *)
Lemma update_x11_workarea_not_within :
  let x := mk_xinerama true true (Some [mk_head 1000 0 800 600]) in
  fst (update_x11_workarea true 800 600 x 0) = mk_rect 1000 0 800 600 /\
  ~ rect_within (fst (update_x11_workarea true 800 600 x 0)) 800 600.
Proof.
  intros x. split; [reflexivity|].
  unfold rect_within; simpl; lia.
Qed.

(** C5 (amended): with Xinerama built, present and active, a head index
    within [0, heads) makes the work area exactly that head's reported
    rectangle with no warning (so it lies within the display bounds
    exactly when the reported head does); an index out of range, or a
    failed screen query, leaves the full display rectangle and logs
    exactly one warning. *)
Theorem update_x11_workarea_heads (dw dh : Z) (x : xinerama) (i : Z) :
  xin_present x = true -> xin_active x = true ->
  (forall si, xin_screens x = Some si -> 0 <= i < Z.of_nat (List.length si) ->
     exists ps, nth_error si (Z.to_nat i) = Some ps /\
     update_x11_workarea true dw dh x i
       = (mk_rect (x_org ps) (y_org ps) (h_width ps) (h_height ps), []) /\
     (rect_within (fst (update_x11_workarea true dw dh x i)) dw dh <->
      rect_within (mk_rect (x_org ps) (y_org ps) (h_width ps) (h_height ps)) dw dh)) /\
  ((match xin_screens x with
    | Some si => i < 0 \/ Z.of_nat (List.length si) <= i
    | None => True end) ->
   fst (update_x11_workarea true dw dh x i) = mk_rect 0 0 dw dh /\
   List.length (snd (update_x11_workarea true dw dh x i)) = 1%nat).
Proof.
  intros Hp Ha. unfold update_x11_workarea. rewrite Hp, Ha. simpl.
  split.
  - intros si Hsi Hi. rewrite Hsi.
    assert (Hn : (Z.to_nat i < List.length si)%nat) by lia.
    destruct (nth_error si (Z.to_nat i)) as [ps|] eqn:E.
    + exists ps. split; [reflexivity|].
      assert (Hc : ((i <? 0) || (i >=? Z.of_nat (List.length si))) = false) by lia.
      rewrite Hc. rewrite (nth_error_nth si (Z.to_nat i) (mk_head 0 0 0 0) E).
      split; reflexivity.
    + apply nth_error_None in E. lia.
  - destruct (xin_screens x) as [si|]; [|split; reflexivity].
    intros Hi.
    assert (Hc : ((i <? 0) || (i >=? Z.of_nat (List.length si))) = true) by lia.
    rewrite Hc. split; reflexivity.
Qed.

Lemma update_x11_workarea_heads_witness :
  let x := mk_xinerama true true (Some [mk_head 0 0 1920 1080;
                                        mk_head 1920 0 1280 1024]) in
  xin_present x = true /\ xin_active x = true /\
  update_x11_workarea true 3200 1080 x 1 = (mk_rect 1920 0 1280 1024, []) /\
  fst (update_x11_workarea true 3200 1080 x 2) = mk_rect 0 0 3200 1080 /\
  List.length (snd (update_x11_workarea true 3200 1080 x 2)) = 1%nat.
Proof.
  intros x.
  destruct (update_x11_workarea_heads 3200 1080 x 1 eq_refl eq_refl) as [H1 _].
  destruct (update_x11_workarea_heads 3200 1080 x 2 eq_refl eq_refl) as [_ H2].
  split; [reflexivity|]. split; [reflexivity|].
  split.
  - destruct (H1 _ eq_refl ltac:(simpl; lia)) as (ps & Hps & Hu & _).
    simpl in Hps. inversion Hps; subst ps. exact Hu.
  - apply H2. simpl. lia.
Defined.

End WorkareaFacts.

(* ------------------------------------------------------------------------- *)
(** ** Virtual root *)

Module VRootFacts.
Import Prop_ Server VRoot.

(** The format a reply reports is 0, 8, 16 or 32, never [XA_WINDOW]
    (33), so [x11_atom_window_list] never returns a window. *)
Lemma get_property_format props atom len req :
  r_format (get_property props atom len req) <> XA_WINDOW.
Proof.
  unfold get_property.
  destruct (props atom) as [p|]; simpl; [|discriminate].
  destruct (negb _ && negb _); simpl;
    destruct (p_format p); simpl; discriminate.
Qed.

Lemma x11_atom_window_list_empty st atom :
  x11_atom_window_list st atom = [].
Proof.
  unfold x11_atom_window_list.
  pose proof (get_property_format (root_props st) atom all_of_it XA_WINDOW) as H.
  destruct (r_status _ =? 0); [|reflexivity].
  apply Z.eqb_neq in H. rewrite H. reflexivity.
Qed.

(** C6: when the root window carries a non-empty [_NET_VIRTUAL_ROOTS]
    list but the current-desktop property is unavailable (its atom does
    not exist, or the root window has no such property),
    [VRootWindowOfScreen] returns the true root window. *)
Theorem vroot_no_current_desktop (st : xstate) (root : Window) (p : property) :
  intern st "_NET_VIRTUAL_ROOTS" <> 0 ->
  root_props st (intern st "_NET_VIRTUAL_ROOTS") = Some p ->
  p_type p = XA_WINDOW -> p_data p <> [] ->
  (intern st "_NET_CURRENT_DESKTOP" = 0 \/
   root_props st (intern st "_NET_CURRENT_DESKTOP") = None) ->
  VRootWindowOfScreen st root = Ret root.
Proof.
  intros _ _ _ _ _.
  unfold VRootWindowOfScreen.
  rewrite x11_atom_window_list_empty.
  destruct (intern st "_NET_VIRTUAL_ROOTS" =? 0); reflexivity.
Qed.

Lemma vroot_no_current_desktop_witness :
  let st := mk_xstate
              (fun s => if String.eqb s "_NET_VIRTUAL_ROOTS" then 400 else 0)
              (fun a => if a =? 400 then Some (mk_property XA_WINDOW F32 [77; 78])
                        else None) in
  intern st "_NET_VIRTUAL_ROOTS" <> 0 /\
  root_props st (intern st "_NET_VIRTUAL_ROOTS")
    = Some (mk_property XA_WINDOW F32 [77; 78]) /\
  VRootWindowOfScreen st 1 = Ret 1.
Proof.
  intros st.
  split; [vm_compute; discriminate|]. split; [reflexivity|].
  apply (vroot_no_current_desktop st 1 (mk_property XA_WINDOW F32 [77; 78]));
    try reflexivity; try discriminate.
  left; reflexivity.
Defined.

End VRootFacts.

(* ------------------------------------------------------------------------- *)
(** ** Desktop window search *)

Module DesktopSearchFacts.
Import Server DesktopSearch.

Lemma first_match_some t w h l c :
  first_match t w h l = Some c -> first_match_in t w h l c.
Proof.
  induction l as [|x l IH]; simpl; [discriminate|].
  destruct (child_matches t w h x) eqn:Hx.
  - intros E; inversion E; subst. exists [], l. auto.
  - intros E. destruct (IH E) as (pre & post & -> & Hc & Hpre).
    exists (x :: pre), post. simpl. rewrite Hx. auto.
Qed.

Lemma first_match_none t w h l :
  first_match t w h l = None -> forall c, In c l -> child_matches t w h c = false.
Proof.
  induction l as [|x l IH]; simpl; [contradiction|].
  destruct (child_matches t w h x) eqn:Hx; [discriminate|].
  intros E c [<-|Hin]; auto.
Qed.

Lemma last_cons_default (l : list Window) (x d : Window) :
  last (x :: l) d = last l x.
Proof.
  revert x d; induction l as [|y l IH]; intros x d; [reflexivity|].
  change (last (y :: l) d = last (y :: l) x). rewrite !IH. reflexivity.
Qed.

Lemma search_levels_spec t w h fuel win :
  exists path, chain t w h win path /\ (List.length path <= fuel)%nat /\
  search_levels t w h fuel win = last path win /\
  ((List.length path < fuel)%nat ->
   forall c, In c (t.(children) (last path win)) -> child_matches t w h c = false).
Proof.
  revert win; induction fuel as [|fuel IH]; intros win; simpl.
  - exists []. split; [apply chain_nil|]. split; [simpl; lia|].
    split; [reflexivity|]. intros Hlt; simpl in Hlt; lia.
  - destruct (first_match t w h (children t win)) as [c|] eqn:E.
    + destruct (IH c) as (path & Hch & Hlen & Hres & Hstop).
      exists (c :: path).
      split; [apply chain_cons; auto using first_match_some|].
      split; [simpl; lia|].
      assert (Hl : last (c :: path) win = last path c).
      { apply last_cons_default. }
      rewrite Hl. split; [exact Hres|].
      intros Hlt. apply Hstop. simpl in Hlt. lia.
    + exists []. split; [apply chain_nil|]. split; [simpl; lia|].
      split; [reflexivity|]. intros _. exact (first_match_none t w h _ E).
Qed.

(** C8: [find_desktop_window_impl] follows a path of at most 10 windows
    from [win], each the first child (in [XQueryTree] order) of the
    previous one that is viewable (mapped, as its parent is), not
    override-redirect and exactly [w] x [h]; it returns the last window of
    the path; when it stops before 10 levels no child of that window
    matches; and when no child of [win] matches it returns [win] itself. *)
Theorem find_desktop_window_impl_spec (t : tree) (win : Window) (w h : Z) :
  (exists path, chain t w h win path /\ (List.length path <= 10)%nat /\
   find_desktop_window_impl t win w h = last path win /\
   ((List.length path < 10)%nat ->
    forall c, In c (t.(children) (last path win)) ->
    child_matches t w h c = false)) /\
  ((forall c, In c (t.(children) win) -> child_matches t w h c = false) ->
   find_desktop_window_impl t win w h = win).
Proof.
  split; [apply search_levels_spec|].
  intros Hnone. unfold find_desktop_window_impl. simpl.
  destruct (first_match t w h (children t win)) as [c|] eqn:E; [|reflexivity].
  destruct (first_match_some _ _ _ _ _ E) as (pre & post & Hl & Hc & _).
  rewrite Hnone in Hc; [discriminate|]. rewrite Hl. apply in_or_app. right; left; reflexivity.
Qed.

(** A root whose only child is unmapped: the search returns the root. *)
Lemma find_desktop_window_impl_spec_witness :
  let t := mk_tree (fun w => if w =? 1 then [2] else [])
                   (fun w => if w =? 2
                             then Some (mk_wattrs IsUnmapped false 1920 1080)
                             else None) in
  (forall c, In c (children t 1) -> child_matches t 1920 1080 c = false) /\
  find_desktop_window_impl t 1 1920 1080 = 1.
Proof.
  intros t.
  assert (H : forall c, In c (children t 1) -> child_matches t 1920 1080 c = false).
  { intros c Hc. simpl in Hc. destruct Hc as [<-|[]]. reflexivity. }
  split; [exact H|].
  exact (proj2 (find_desktop_window_impl_spec t 1 1920 1080) H).
Defined.

End DesktopSearchFacts.

(* ------------------------------------------------------------------------- *)
(** ** Window creation *)

Module WindowInitFacts.
Import Server WindowInit.

(** C7, as stated, fails for panels: a panel window is created at its
    requested position, not at the origin. *)
Lemma panel_not_at_origin :
  let c := create_own_window PANEL 1 1 100 200 false in
  (c_x c, c_y c) = (100, 200) /\ (c_x c, c_y c) <> (0, 0).
Proof. split; [reflexivity | discriminate]. Qed.

(** C7 (amended): only a dock window has its position forced to the
    origin before [XCreateWindow]; a panel, like every other window type,
    is created at the requested position.  Dock and
    panel are treated alike only for Fluxbox's withdrawn initial state. *)
Theorem create_own_window_position (ty : window_type) (root desktop : Window)
  (gx gy : Z) (fluxbox : bool) :
  (c_x (create_own_window ty root desktop gx gy fluxbox),
   c_y (create_own_window ty root desktop gx gy fluxbox))
  = (if is_dock ty then (0, 0) else (gx, gy)) /\
  (c_x (create_own_window DOCK root desktop gx gy fluxbox),
   c_y (create_own_window DOCK root desktop gx gy fluxbox)) = (0, 0) /\
  (c_x (create_own_window PANEL root desktop gx gy fluxbox),
   c_y (create_own_window PANEL root desktop gx gy fluxbox)) = (gx, gy) /\
  c_initial_state (create_own_window DOCK root desktop gx gy fluxbox)
  = c_initial_state (create_own_window PANEL root desktop gx gy fluxbox).
Proof.
  split.
  - destruct ty; reflexivity.
  - repeat split.
Qed.

End WindowInitFacts.

(* ------------------------------------------------------------------------- *)
(** ** Event propagation *)

Module PropagateFacts.
Import Server Propagate.

Lemma topmost_in (l : list Window) (t : Window) :
  topmost l = Some t -> In t l.
Proof.
  unfold topmost. intros H. apply in_rev.
  destruct (rev l) as [|x r]; [discriminate|]. inversion H; subst. left; reflexivity.
Qed.

Lemma remove_overlay_spec (e : env) (l : list Window) (t : Window) :
  In t (remove_overlay e l) -> In t l /\ t <> w_window e.
Proof.
  unfold remove_overlay. rewrite filter_In. intros [Hin Hneq].
  split; [exact Hin|]. apply negb_true_iff, Z.eqb_neq in Hneq. exact Hneq.
Qed.

(** Neither path ever picks the overlay's own window, as long as the
    desktop (resp. the root) is not the overlay itself. *)
Lemma x11_target_not_overlay (e : env) (xr yr : Z) :
  w_desktop e <> w_window e -> x11_target e xr yr <> w_window e.
Proof.
  intros Hd. unfold x11_target.
  destruct (topmost _) as [t|] eqn:E; [|exact Hd].
  apply topmost_in, remove_overlay_spec in E. tauto.
Qed.

Lemma xinput_target_not_overlay (e : env) (ev : xi_event) :
  w_root e <> w_window e -> xinput_target e ev <> w_window e.
Proof.
  intros Hr. unfold xinput_target.
  destruct (topmost _) as [t|] eqn:E; [|exact Hr].
  apply topmost_in, remove_overlay_spec in E. tauto.
Qed.

(** The core path sends exactly one event, to [x11_target]. *)
Lemma propagate_x11_core_target (e : env) (ev : xevent) (cookie : option xi_event) :
  is_xi_generic e ev = false -> is_input_event (ev_type ev) = true ->
  send_targets (propagate_x11_event e ev cookie)
  = [x11_target e (ev_x_root ev) (ev_y_root ev)].
Proof.
  intros Hg Hi. unfold propagate_x11_event, x11_target.
  rewrite Hg, Hi. simpl.
  destruct (topmost _) as [t|];
    [destruct (translate e (w_root e) t _ _) as [[x y] ch]|];
    destruct (ev_type ev =? ButtonPress); reflexivity.
Qed.

Lemma sends_to_target (tg : Window) (evs : list (Z * xevent)) (t : Window) :
  In t (send_targets (UngrabPointer
                      :: map (fun '(m, x) => SendEvent tg m x) evs ++ [Flush])) ->
  t = tg.
Proof.
  induction evs as [|[m x] evs IH]; simpl; [intros []|].
  intros [H|H]; [symmetry; exact H|]. apply IH. exact H.
Qed.

(** The extension path sends its events to [xinput_target]. *)
Lemma propagate_xinput_targets (e : env) (ev : xi_event) (t : Window) :
  In t (send_targets (propagate_xinput_event e ev)) -> t = xinput_target e ev.
Proof.
  unfold propagate_xinput_event, xinput_target.
  destruct (negb _); [simpl; contradiction|].
  destruct (topmost _) as [u|].
  - destruct (xi_pos_absolute ev) as [ax ay].
    destruct (translate e (w_desktop e) (xi_event_window ev) ax ay) as [[rx ry] ch].
    apply sends_to_target.
  - apply sends_to_target.
Qed.

(** Every event the extension path sends is a core input event. *)
Lemma xinput_sent_types (e : env) (c : xi_event) (t : Window) (m : Z)
  (x : xevent) :
  In (SendEvent t m x) (propagate_xinput_event e c) ->
  is_input_event (ev_type x) = true.
Proof.
  assert (G : forall tg ch pos,
    In (SendEvent t m x)
      (UngrabPointer :: map (fun '(m, x) => SendEvent tg m x)
                          (generate_events c tg ch pos) ++ [Flush]) ->
    is_input_event (ev_type x) = true).
  { intros tg ch [px py]. unfold generate_events.
    destruct (xi_pos_absolute c) as [ax ay]. simpl.
    intros [H|[H|[H|[]]]]; try discriminate. inversion H; subst; simpl.
    destruct (xi_evtype c =? XI_Motion); [reflexivity|].
    destruct (xi_evtype c =? XI_ButtonPress); reflexivity. }
  unfold propagate_xinput_event.
  destruct (negb _); [intros []|].
  destruct (topmost _) as [u|].
  - destruct (xi_pos_absolute c) as [ax ay].
    destruct (translate e (w_desktop e) (xi_event_window c) ax ay) as [[rx ry] ch].
    apply G.
  - apply G.
Qed.

(** C4, as stated, fails: an XInput generic event (type [GenericEvent],
    not one of the seven core input types) carrying a button press is
    forwarded. *)
Lemma propagate_generic_event_sent :
  let ev := mk_xevent GenericEvent 0 0 0 0 0 0 0 131 in
  let c := mk_xi_event XI_ButtonPress 5 (3, 4) (10, 10) 1 in
  is_input_event (ev_type ev) = false /\
  send_targets (propagate_x11_event overlay_only_env ev (Some c)) = [1].
Proof. split; reflexivity. Qed.

(** C4 (amended): a core event whose type is not one of the seven input
    types (key press/release, button press/release, motion, enter,
    leave) is dropped without any request; apart from those, only an
    XInput generic event of the negotiated opcode with a non-null cookie
    of type motion, button press or button release leads to a send; and
    every event sent is of one of the seven input types. *)
Theorem propagate_only_input_events (e : env) (ev : xevent)
  (cookie : option xi_event) :
  (is_xi_generic e ev = false -> is_input_event (ev_type ev) = false ->
   propagate_x11_event e ev cookie = []) /\
  (send_targets (propagate_x11_event e ev cookie) <> [] ->
   (is_xi_generic e ev = false /\ is_input_event (ev_type ev) = true) \/
   (is_xi_generic e ev = true /\
    exists c, cookie = Some c /\
    (xi_evtype c = XI_Motion \/ xi_evtype c = XI_ButtonPress
     \/ xi_evtype c = XI_ButtonRelease))) /\
  (forall t m x, In (SendEvent t m x) (propagate_x11_event e ev cookie) ->
   is_input_event (ev_type x) = true).
Proof.
  unfold propagate_x11_event.
  destruct (is_xi_generic e ev) eqn:Hg.
  - split; [discriminate|]. split.
    + intros Hs. right. split; [reflexivity|].
      destruct cookie as [c|]; [|contradiction].
      exists c. split; [reflexivity|].
      unfold propagate_xinput_event in Hs.
      destruct (xi_evtype c =? XI_Motion) eqn:H1; [left; lia|].
      destruct (xi_evtype c =? XI_ButtonPress) eqn:H2; [right; left; lia|].
      destruct (xi_evtype c =? XI_ButtonRelease) eqn:H3; [right; right; lia|].
      simpl in Hs. contradiction.
    + intros t m x. destruct cookie as [c|]; [|simpl; intros []].
      apply xinput_sent_types.
  - destruct (is_input_event (ev_type ev)) eqn:Hi.
    + split; [discriminate|]. split; [intros _; left; split; reflexivity|].
      intros t m x. simpl.
      destruct (topmost _) as [u|];
        [destruct (translate e (w_root e) u _ _) as [[px py] ch]|];
        destruct (ev_type ev =? ButtonPress); simpl;
        intros H; repeat destruct H as [H|H]; try discriminate; try contradiction;
        inversion H; subst; exact Hi.
    + split; [reflexivity|]. split; [simpl; contradiction|]. intros t m x [].
Qed.

(** C1 does not hold on the extension path: at a position where the only
    window is the overlay, a core button press goes to the desktop
    window [2], but the same press delivered through XInput goes to the
    true root [1], not to the desktop window. *)
Theorem propagate_overlay_only_targets :
  let core := mk_xevent ButtonPress 5 3 4 10 10 1 0 0 in
  let gen := mk_xevent GenericEvent 0 0 0 0 0 0 0 131 in
  let c := mk_xi_event XI_ButtonPress 5 (3, 4) (10, 10) 1 in
  send_targets (propagate_x11_event overlay_only_env core None) = [2] /\
  send_targets (propagate_x11_event overlay_only_env gen (Some c)) = [1] /\
  w_desktop overlay_only_env = 2 /\ w_root overlay_only_env = 1.
Proof. repeat split. Qed.

(** [ev_to_mask] returns [NoEventMask] exactly for the event types that are
    not one of the seven input types, whatever the button; a button release
    always carries [ButtonReleaseMask]. *)
Theorem ev_to_mask_input (t b : Z) :
  (ev_to_mask t b = NoEventMask <-> is_input_event t = false) /\
  (t = ButtonRelease ->
   Z.land (ev_to_mask t b) ButtonReleaseMask = ButtonReleaseMask).
Proof.
  unfold ev_to_mask, is_input_event.
  destruct (Z.eqb_spec t KeyPress) as [->|H1]; [split; [split; discriminate|discriminate]|].
  destruct (Z.eqb_spec t KeyRelease) as [->|H2]; [split; [split; discriminate|discriminate]|].
  destruct (Z.eqb_spec t ButtonPress) as [->|H3]; [split; [split; discriminate|discriminate]|].
  destruct (Z.eqb_spec t ButtonRelease) as [->|H4].
  - split; [|intros _].
    + split; [|discriminate].
      repeat (destruct (_ =? _); [discriminate|]); discriminate.
    + repeat (destruct (_ =? _); [reflexivity|]); reflexivity.
  - split; [|intros H; contradiction].
    destruct (Z.eqb_spec t EnterNotify) as [->|H5]; [split; discriminate|].
    destruct (Z.eqb_spec t LeaveNotify) as [->|H6]; [split; discriminate|].
    destruct (Z.eqb_spec t MotionNotify) as [->|H7]; [split; discriminate|].
    simpl. split; reflexivity.
Qed.

(** The core path of [propagate_x11_event] for an input event: it releases
    the pointer grab, then sends one copy of the event to [x11_target]
    with the mask of its type, stamped [CurrentTime] and keeping type,
    root coordinates and button; a button press additionally moves the
    input focus to that same window, no other type does. *)
Theorem propagate_x11_core_shape (e : env) (ev : xevent)
  (cookie : option xi_event) :
  is_xi_generic e ev = false -> is_input_event (ev_type ev) = true ->
  let tg := x11_target e (ev_x_root ev) (ev_y_root ev) in
  exists ev2,
    propagate_x11_event e ev cookie =
      [UngrabPointer;
       SendEvent tg (ev_to_mask (ev_type ev)
                       (if ev_type ev =? ButtonRelease then ev_button ev else 0)) ev2]
      ++ (if ev_type ev =? ButtonPress then [SetInputFocus tg] else []) /\
    ev_type ev2 = ev_type ev /\ ev_window ev2 = tg /\
    ev_x_root ev2 = ev_x_root ev /\ ev_y_root ev2 = ev_y_root ev /\
    ev_button ev2 = ev_button ev /\ ev_time ev2 = CurrentTime.
Proof.
  intros Hg Hi tg. subst tg. unfold propagate_x11_event, x11_target.
  rewrite Hg, Hi. simpl.
  destruct (topmost _) as [t|].
  - destruct (translate e (w_root e) t _ _) as [[x y] ch]. simpl.
    eexists. split; [reflexivity|]. repeat split.
  - simpl. eexists. split; [reflexivity|]. repeat split.
Qed.

Lemma propagate_x11_core_shape_witness :
  let e := mk_env 5 1 2 None (fun _ => [7; 5]) (fun _ _ x y => (x - 1, y - 1, 0)) in
  let ev := mk_xevent ButtonPress 5 3 4 10 10 1 99 0 in
  exists ev2,
    propagate_x11_event e ev None =
      [UngrabPointer; SendEvent 7 ButtonPressMask ev2; SetInputFocus 7] /\
    ev_time ev2 = CurrentTime.
Proof.
  intros e ev.
  destruct (propagate_x11_core_shape e ev None eq_refl eq_refl)
    as [ev2 [H [_ [_ [_ [_ [_ Ht]]]]]]].
  exists ev2. split; [exact H|exact Ht].
Defined.

End PropagateFacts.

(* ------------------------------------------------------------------------- *)
(** ** Desktop names and the refresh dispatcher *)

Module DesktopInfoFacts.
Import Prop_ DesktopCache DesktopInfo.

Local Ltac blia :=
  repeat match goal with
         | H : (_ && _) = true |- _ => apply andb_true_iff in H
         | H : (_ && _) = false |- _ => apply andb_false_iff in H
         end; lia.

Lemma nul_eqb_false (c : ascii) : c <> CStr.nul -> Ascii.eqb c CStr.nul = false.
Proof. intros H. apply Ascii.eqb_neq. exact H. Qed.

Lemma take_cstr_entry (e r : list ascii) :
  no_nul e -> CStr.take_cstr (e ++ CStr.nul :: r) = e.
Proof.
  induction e as [|c e IH]; intros He; simpl; [reflexivity|].
  rewrite nul_eqb_false by (intros ->; apply He; left; reflexivity).
  f_equal. apply IH. intros Hin; apply He; right; exact Hin.
Qed.

Lemma skipn_step {A} (l r : list A) (x : A) (i : nat) :
  skipn i l = x :: r -> skipn (S i) l = r.
Proof.
  revert l; induction i as [|i IH]; intros [|y l] H; simpl in *;
    try discriminate.
  - inversion H; reflexivity.
  - apply IH. exact H.
Qed.

(** Scanning one entry (without NUL) up to its terminator. *)
Lemma scan_entry (names e R : list ascii) (i j : nat) (k cur : Z) (d : desktop) :
  no_nul e -> skipn i names = e ++ CStr.nul :: R ->
  current_name_loop names (e ++ CStr.nul :: R) i j k cur d =
  if k + 1 =? cur then set_name d (CStr.take_cstr (skipn j names))
  else current_name_loop names R (i + List.length e + 1)
         (i + List.length e + 1) (k + 1) cur d.
Proof.
  revert i; induction e as [|c e IH]; intros i He Hs; simpl.
  - replace (i + 0 + 1)%nat with (S i) by lia. reflexivity.
  - rewrite nul_eqb_false by (intros ->; apply He; left; reflexivity).
    rewrite (IH (S i)).
    + replace (S i + List.length e + 1)%nat with (i + S (List.length e) + 1)%nat by lia.
      reflexivity.
    + intros Hin; apply He; right; exact Hin.
    + apply (skipn_step _ _ c). exact Hs.
Qed.

Lemma skipn_app_len {A} (l p r : list A) (i : nat) :
  skipn i l = p ++ r -> skipn (i + List.length p) l = r.
Proof.
  revert i; induction p as [|x p IH]; intros i H; simpl.
  - rewrite Nat.add_0_r. exact H.
  - replace (i + S (List.length p))%nat with (S i + List.length p)%nat by lia.
    apply IH. apply (skipn_step _ _ x). exact H.
Qed.

Lemma loop_join (names : list ascii) (es : list (list ascii)) (i : nat)
  (k cur : Z) (d : desktop) :
  Forall no_nul es -> skipn i names = join_names es ->
  current_name_loop names (join_names es) i i k cur d =
  if (k <? cur) && (cur <=? k + Z.of_nat (List.length es))
  then set_name d (nth (Z.to_nat (cur - k - 1)) es [])
  else d.
Proof.
  revert i k; induction es as [|e es IH]; intros i k Hf Hs.
  - simpl. destruct ((k <? cur) && (cur <=? k + 0)) eqn:E; [blia|reflexivity].
  - inversion Hf as [|? ? He Hes]; subst.
    assert (Hj : join_names (e :: es) = e ++ CStr.nul :: join_names es)
      by (unfold join_names; simpl; rewrite <- app_assoc; reflexivity).
    rewrite Hj in *.
    rewrite (scan_entry names e (join_names es) i i k cur d He Hs).
    destruct (k + 1 =? cur) eqn:Ek.
    + rewrite Hs, take_cstr_entry by exact He.
      replace (Z.to_nat (cur - k - 1)) with 0%nat by lia.
      destruct (_ && _) eqn:E; [reflexivity|].
      apply Z.eqb_eq in Ek. apply andb_false_iff in E.
      destruct E as [E|E]; [apply Z.ltb_ge in E|apply Z.leb_gt in E];
        pose proof (Nat2Z.is_nonneg (List.length es)); cbn [List.length] in E; lia.
    + rewrite IH; [| exact Hes |].
      * cbn [List.length]. rewrite Nat2Z.inj_succ. apply Z.eqb_neq in Ek.
        destruct (Z.ltb_spec (k + 1) cur); destruct (Z.leb_spec cur (k + 1 + Z.of_nat (List.length es)));
        destruct (Z.ltb_spec k cur); destruct (Z.leb_spec cur (k + Z.succ (Z.of_nat (List.length es))));
        simpl andb; try lia; try reflexivity.
        replace (Z.to_nat (cur - k - 1)) with (S (Z.to_nat (cur - (k + 1) - 1))) by lia.
        reflexivity.
      * replace (i + List.length e + 1)%nat with (i + List.length (e ++ [CStr.nul]))%nat
          by (rewrite length_app; simpl; lia).
        apply skipn_app_len. rewrite <- app_assoc. exact Hs.
Qed.

(** The current-name derivation on a well-formed name list (entries
    without NUL, each NUL-terminated): an index [k] in [1, #entries]
    selects the [k]-th entry; any other index leaves the cache as it was,
    including the previous name. *)
Theorem current_name_of_joined (es : list (list ascii)) (d : desktop) :
  Forall no_nul es ->
  get_x11_desktop_current_name (join_names es) d =
  if (0 <? current d) && (current d <=? Z.of_nat (List.length es))
  then set_name d (nth (Z.to_nat (current d - 1)) es [])
  else d.
Proof.
  intros Hf. unfold get_x11_desktop_current_name.
  rewrite (loop_join (join_names es) es 0 0 (current d) d Hf eq_refl).
  replace (current d - 0 - 1) with (current d - 1) by lia.
  reflexivity.
Qed.

Lemma current_name_of_joined_witness :
  let es := [CStr.of_string "main"; CStr.of_string "web"] in
  let d := mk_desktop 2 2 (join_names es) [] in
  Forall no_nul es /\
  get_x11_desktop_current_name (join_names es) d
    = set_name d (CStr.of_string "web") /\
  get_x11_desktop_current_name (join_names es) (set_current d 3) = set_current d 3.
Proof.
  intros es d.
  assert (Hf : Forall no_nul es).
  { repeat constructor; unfold no_nul; simpl; intros H;
      repeat destruct H as [H|H]; try discriminate; contradiction. }
  split; [exact Hf|]. split.
  - rewrite (current_name_of_joined es d Hf). reflexivity.
  - rewrite (current_name_of_joined es (set_current d 3) Hf). reflexivity.
Defined.

Lemma first_byte_range (r : reply) : 0 <= first_byte r <= 255.
Proof.
  unfold first_byte. destruct (r_data r) as [[|x l]|]; try lia.
  change (Z.land x 255) with (Z.land x (Z.ones 8)). rewrite Z.land_ones by lia.
  pose proof (Z.mod_pos_bound x (2 ^ 8) ltac:(lia)). lia.
Qed.

(** [get_x11_desktop_current] and [get_x11_desktop_number] either leave the
    cache untouched or store the low byte of the reply: the current desktop
    is then in [1, 256] and the desktop count in [0, 255]; no other field
    changes. *)
Theorem desktop_cardinal_reads_range (a : Atom) (r : reply) (d : desktop) :
  (get_x11_desktop_current a r d = d \/
   (get_x11_desktop_current a r d = set_current d (first_byte r + 1) /\
    1 <= first_byte r + 1 <= 256)) /\
  (get_x11_desktop_number a r d = d \/
   (get_x11_desktop_number a r d = set_number d (first_byte r) /\
    0 <= first_byte r <= 255)).
Proof.
  pose proof (first_byte_range r) as Hb.
  unfold get_x11_desktop_current, get_x11_desktop_number.
  destruct (a =? None_); [tauto|].
  destruct (cardinal_ok r); [|tauto].
  split; right; split; (reflexivity || lia).
Qed.

Lemma names_bytes_roundtrip (l : list ascii) :
  byte_list_to_ascii (bytes_of l) = l.
Proof.
  induction l as [|c l IH]; [reflexivity|].
  simpl. rewrite IH. f_equal.
  pose proof (Ascii.N_ascii_bounded c) as Hc.
  match goal with |- context [Z.land ?z 255] =>
    change (Z.land z 255) with (Z.land z (Z.ones 8)) end.
  rewrite Z.land_ones by lia.
  rewrite Z.mod_small by (split; [lia|]; change (2 ^ 8) with (Z.of_N 256); lia).
  rewrite N2Z.id. apply Ascii.ascii_N_embedding.
Qed.

Lemma join_names_nonempty (es : list (list ascii)) :
  es <> [] -> (0 < List.length (join_names es))%nat.
Proof.
  destruct es as [|e es]; [contradiction|]. intros _.
  unfold join_names. simpl. rewrite !length_app. simpl. lia.
Qed.

(** A [_NET_DESKTOP_NAMES] change notification whose reply carries a
    well-formed name list (entries without NUL, each NUL-terminated, at
    least one entry) stores that list verbatim in [all_names] and then
    re-derives the desktop name from it: the entry selected by the cached
    current desktop when it is in range, the previous name otherwise. *)
Theorem names_notification_roundtrip (sv : server) (s : info_state)
  (es : list (list ascii)) :
  atom_names s <> 0 -> atom_names s <> atom_current s ->
  atom_names s <> atom_number s -> Forall no_nul es -> es <> [] ->
  reply_of sv (atom_names s) =
    mk_reply 0 (utf8 sv) 8 (Z.of_nat (List.length (join_names es)))
      (Some (bytes_of (join_names es))) ->
  desk (get_x11_desktop_info sv (atom_names s) s) =
    if (0 <? current (desk s)) && (current (desk s) <=? Z.of_nat (List.length es))
    then mk_desktop (current (desk s)) (number (desk s)) (join_names es)
           (nth (Z.to_nat (current (desk s) - 1)) es [])
    else set_all_names (desk s) (join_names es).
Proof.
  intros H0 Hc Hn Hf Hne Hr.
  pose proof (join_names_nonempty es Hne) as Hlen.
  unfold get_x11_desktop_info.
  rewrite (proj2 (Z.eqb_neq _ _) H0), (proj2 (Z.eqb_neq _ _) Hc),
    (proj2 (Z.eqb_neq _ _) Hn), Z.eqb_refl. simpl.
  unfold refresh_name, refresh_names, get_x11_desktop_names.
  rewrite Hr. unfold None_.
  rewrite (proj2 (Z.eqb_neq _ _) H0).
  assert (Hok : names_ok (utf8 sv) (mk_reply 0 (utf8 sv) 8
      (Z.of_nat (List.length (join_names es))) (Some (bytes_of (join_names es))))
      = true).
  { unfold names_ok; simpl. rewrite Z.eqb_refl. simpl.
    apply andb_true_iff; split; [apply Z.gtb_lt; lia|reflexivity]. }
  rewrite Hok. simpl. rewrite Nat2Z.id, names_bytes_roundtrip, firstn_all.
  unfold get_x11_desktop_current_name, set_all_names. simpl.
  rewrite (loop_join (join_names es) es 0 0 (current (desk s)) _ Hf eq_refl).
  replace (current (desk s) - 0 - 1) with (current (desk s) - 1) by lia.
  destruct (_ && _); reflexivity.
Qed.

Lemma names_notification_roundtrip_witness :
  let es := [CStr.of_string "a"; CStr.of_string "bc"] in
  let sv := mk_server (fun _ => 0)
    (fun a => if a =? 9 then mk_reply 0 300 8 (Z.of_nat (List.length (join_names es)))
                               (Some (bytes_of (join_names es)))
              else mk_reply 1 0 0 0 None) 300 in
  let s := mk_info_state 7 8 9 (mk_desktop 2 2 [] []) 0 in
  desk (get_x11_desktop_info sv 9 s) = mk_desktop 2 2 (join_names es) (CStr.of_string "bc").
Proof.
  intros es sv s.
  assert (Hf : Forall no_nul es).
  { repeat constructor; unfold no_nul; simpl; intros H;
      repeat destruct H as [H|H]; try discriminate; contradiction. }
  change 9 with (atom_names s).
  rewrite (names_notification_roundtrip sv s es ltac:(simpl; lia) ltac:(simpl; lia)
             ltac:(simpl; lia) Hf ltac:(discriminate) eq_refl).
  reflexivity.
Defined.

(** A change notification for [_NET_NUMBER_OF_DESKTOPS] (an atom that is
    not the current-desktop one) rewrites at most the desktop count: the
    current desktop, both name fields, the three atoms and the root event
    mask stay as they were. *)
Theorem number_notification_only_number (sv : server) (s : info_state) :
  atom_number s <> 0 -> atom_number s <> atom_current s ->
  let s' := get_x11_desktop_info sv (atom_number s) s in
  desk s' = set_number (desk s) (number (desk s')) /\
  atom_current s' = atom_current s /\ atom_number s' = atom_number s /\
  atom_names s' = atom_names s /\ root_event_mask s' = root_event_mask s.
Proof.
  intros H0 Hc s'. subst s'. unfold get_x11_desktop_info.
  rewrite (proj2 (Z.eqb_neq _ _) H0), (proj2 (Z.eqb_neq _ _) Hc), Z.eqb_refl.
  simpl. unfold refresh_number, get_x11_desktop_number.
  destruct (_ =? None_); [|destruct (cardinal_ok _)];
    destruct (desk s); repeat split.
Qed.

Lemma number_notification_only_number_witness :
  let sv := mk_server (fun _ => 0) (fun _ => mk_reply 0 6 32 1 (Some [4])) 300 in
  let s := mk_info_state 7 8 9 (mk_desktop 2 2 [] []) 0 in
  desk (get_x11_desktop_info sv 8 s) = mk_desktop 2 4 [] [].
Proof.
  intros sv s.
  destruct (number_notification_only_number sv s ltac:(simpl; lia) ltac:(simpl; lia))
    as [Hd _].
  change 8 with (atom_number s). rewrite Hd. reflexivity.
Defined.

(** A notification for an atom other than the three desktop atoms changes
    nothing. *)
Theorem unrelated_notification_noop (sv : server) (atom : Atom) (s : info_state) :
  atom <> 0 -> atom <> atom_current s -> atom <> atom_number s ->
  atom <> atom_names s ->
  get_x11_desktop_info sv atom s = s.
Proof.
  intros H0 Hc Hn Hm. unfold get_x11_desktop_info.
  rewrite (proj2 (Z.eqb_neq _ _) H0), (proj2 (Z.eqb_neq _ _) Hc),
    (proj2 (Z.eqb_neq _ _) Hn), (proj2 (Z.eqb_neq _ _) Hm).
  destruct s; reflexivity.
Qed.

Lemma unrelated_notification_noop_witness :
  let sv := mk_server (fun _ => 0) (fun _ => mk_reply 0 6 32 1 (Some [4])) 300 in
  let s := mk_info_state 7 8 9 (mk_desktop 2 2 [] []) 5 in
  get_x11_desktop_info sv 40 s = s.
Proof.
  intros sv s. apply (unrelated_notification_noop sv 40 s); simpl; lia.
Defined.

Lemma lor_absorb_bit (m : Z) (n : Z) : 0 <= n ->
  Z.land m (Z.shiftl 1 n) <> 0 -> Z.lor m (Z.shiftl 1 n) = m.
Proof.
  intros Hn Hl. apply Z.bits_inj'. intros b Hb.
  rewrite Z.lor_spec, Z.shiftl_1_l, Z.pow2_bits_eqb by lia.
  destruct (Z.eqb_spec n b) as [->|]; [|apply orb_false_r].
  rewrite orb_true_r. symmetry.
  destruct (Z.testbit m b) eqn:E; [reflexivity|].
  exfalso. apply Hl. apply Z.bits_inj'. intros c Hc.
  rewrite Z.land_spec, Z.shiftl_1_l, Z.pow2_bits_eqb, Z.bits_0 by lia.
  destruct (Z.eqb_spec b c) as [->|]; [rewrite E; reflexivity|apply andb_false_r].
Qed.

(** Initialisation ([atom == 0]) leaves the root event mask equal to the
    old mask with [PropertyChangeMask] added, whether or not the bit was
    already set: the test only spares a redundant request. *)
Theorem init_root_mask (sv : server) (s : info_state) :
  root_event_mask (get_x11_desktop_info sv 0 s) =
  Z.lor (root_event_mask s) PropertyChangeMask.
Proof.
  unfold get_x11_desktop_info. simpl.
  destruct (Z.eqb_spec (Z.land (root_event_mask s) PropertyChangeMask) 0)
    as [_|Hne]; [reflexivity|].
  symmetry. apply lor_absorb_bit; [lia|exact Hne].
Qed.

End DesktopInfoFacts.

(* ------------------------------------------------------------------------- *)
(** ** Window queries *)

Module QueryFacts.
Import Prop_ Server VRoot DesktopSearch Query.

Lemma vroot_is_root (st : xstate) (root : Window) :
  VRootWindowOfScreen st root = Ret root.
Proof.
  unfold VRootWindowOfScreen. rewrite VRootFacts.x11_atom_window_list_empty.
  destruct (_ =? 0); reflexivity.
Qed.

Lemma client_list_empty (sv : qserver) (name : string) : client_list sv name = [].
Proof.
  unfold client_list. destruct (_ =? 0); [reflexivity|].
  apply VRootFacts.x11_atom_window_list_empty.
Qed.

Lemma query_x11_windows_eq (sv : qserver) (eager : bool) (fuel : nat) :
  query_x11_windows sv eager fuel =
  if eager then dfs sv fuel [q_root sv] [] else Some [].
Proof.
  unfold query_x11_windows. rewrite !client_list_empty, vroot_is_root.
  reflexivity.
Qed.

(** Since [x11_atom_window_list] never returns a window, the client-list
    fast paths never answer and [DefaultVRootWindow] is the true root: a
    lazy query finds no window at all (so neither does a lazy
    [query_x11_windows_at_pos]), an eager one is the tree walk from the
    true root. *)
Theorem query_x11_windows_fallback (sv : qserver) (fuel : nat) (pos : Z * Z)
  (pred : wattrs -> bool) (attr0 : wattrs) :
  VRootWindowOfScreen (q_x sv) (q_root sv) = Ret (q_root sv) /\
  query_x11_windows sv false fuel = Some [] /\
  query_x11_windows_at_pos sv pos pred false fuel attr0 = Some [] /\
  query_x11_windows sv true fuel = dfs sv fuel [q_root sv] [].
Proof.
  split; [apply vroot_is_root|].
  unfold query_x11_windows_at_pos. rewrite !query_x11_windows_eq.
  repeat split.
Qed.

Lemma dfs_sound (sv : qserver) (fuel : nat) :
  forall stack acc l, dfs sv fuel stack acc = Some l ->
  forall w, In w l -> In w acc \/
    (q_hints sv w = true /\ exists s, In s stack /\ descendant sv s w).
Proof.
  induction fuel as [|f IH]; intros [|cur st] acc l H w Hw; simpl in H.
  - inversion H; subst; left; exact Hw.
  - discriminate.
  - inversion H; subst; left; exact Hw.
  - destruct (q_tree sv cur) as [[p ch]|] eqn:Et.
    + destruct (IH _ _ _ H w Hw) as [Ha|[Hh [s [Hs Hd]]]].
      * destruct (q_hints sv cur) eqn:Eh; [|left; exact Ha].
        apply in_app_or in Ha. destruct Ha as [Ha|[Ha|[]]]; [left; exact Ha|].
        subst w. right. split; [exact Eh|].
        exists cur. split; [left; reflexivity|apply desc_refl].
      * right. split; [exact Hh|]. apply in_app_or in Hs. destruct Hs as [Hs|Hs].
        -- exists cur. split; [left; reflexivity|].
           apply in_rev in Hs.
           exact (desc_step sv cur p ch s w Et Hs Hd).
        -- exists s. split; [right; exact Hs|exact Hd].
    + destruct (IH _ _ _ H w Hw) as [Ha|[Hh [s [Hs Hd]]]]; [left; exact Ha|].
      right. split; [exact Hh|]. exists s. split; [right; exact Hs|exact Hd].
Qed.

(** Every window [query_x11_windows] returns has WM hints and lies in the
    tree below the true root. *)
Theorem query_x11_windows_sound (sv : qserver) (eager : bool) (fuel : nat)
  (l : list Window) (w : Window) :
  query_x11_windows sv eager fuel = Some l -> In w l ->
  q_hints sv w = true /\ descendant sv (q_root sv) w.
Proof.
  rewrite query_x11_windows_eq. intros H Hw.
  destruct eager; [|inversion H; subst; destruct Hw].
  destruct (dfs_sound sv fuel _ _ _ H w Hw) as [[]|[Hh [s [[<-|[]] Hd]]]].
  split; [exact Hh|exact Hd].
Qed.

Lemma query_x11_windows_sound_witness :
  query_x11_windows two_clients true 10 = Some [3] /\
  q_hints two_clients 3 = true /\ descendant two_clients 1 3.
Proof.
  assert (H : query_x11_windows two_clients true 10 = Some [3]) by reflexivity.
  split; [exact H|].
  exact (query_x11_windows_sound two_clients true 10 [3] 3 H (or_introl eq_refl)).
Defined.

(** When every [XGetWindowAttributes] call succeeds, the loop of
    [query_x11_windows_at_pos] is a filter of the window list: it keeps,
    in order, the windows whose rectangle (origin plus size) covers [pos]
    and whose attributes satisfy the predicate. *)
Theorem at_pos_loop_filter (sv : qserver) (pos : Z * Z) (pred : wattrs -> bool)
  (ws : list Window) (attr : wattrs) :
  Forall (fun w => q_attrs sv w <> None) ws ->
  at_pos_loop sv pos pred ws attr =
  filter (fun w => match q_attrs sv w with
                   | Some a => covers pos (q_origin sv w) a && pred a
                   | None => false
                   end) ws.
Proof.
  revert attr; induction ws as [|w ws IH]; intros attr Hf; [reflexivity|].
  inversion Hf as [|? ? Hw Hws]; subst. simpl.
  destruct (q_attrs sv w) as [a|]; [|contradiction].
  rewrite (IH a Hws). destruct (covers _ _ _ && pred a); reflexivity.
Qed.

Lemma at_pos_loop_filter_witness :
  Forall (fun w => q_attrs two_clients w <> None) [3] /\
  at_pos_loop two_clients (40, 10) (fun a => is_viewable (a_map_state a)) [3]
    (mk_wattrs IsUnmapped false 0 0) = [3].
Proof.
  assert (Hf : Forall (fun w => q_attrs two_clients w <> None) [3])
    by (repeat constructor; discriminate).
  split; [exact Hf|].
  rewrite (at_pos_loop_filter two_clients (40, 10) _ [3] _ Hf). reflexivity.
Defined.



Lemma top_parent_loop_sound (sv : qserver) (root : Window) (fuel : nat) :
  forall c w, top_parent_loop sv root fuel c = Some w ->
  ancestor sv c w /\
  (q_tree sv w = None \/ exists ch, q_tree sv w = Some (root, ch)).
Proof.
  induction fuel as [|f IH]; intros c w H; simpl in H; [discriminate|].
  destruct (q_tree sv c) as [[p ch]|] eqn:Et.
  - destruct (Z.eqb_spec p root) as [->|Hp].
    + inversion H; subst. split; [apply anc_refl|]. right. exists ch. exact Et.
    + destruct (IH p w H) as [Ha Hw]. split; [|exact Hw].
      exact (anc_step sv c p ch w Et Ha).
  - inversion H; subst. split; [apply anc_refl|left; exact Et].
Qed.

(** [query_x11_top_parent] returns [None] and the root unchanged;
    for any other window it returns an ancestor (or the window itself)
    that is a top-level window (its parent is the root) or on which
    [XQueryTree] failed. *)
Theorem query_x11_top_parent_sound (sv : qserver) (fuel : nat) (child w : Window) :
  query_x11_top_parent sv fuel child = Some w ->
  ((child = None_ \/ child = q_root sv) /\ w = child) \/
  (ancestor sv child w /\
   (q_tree sv w = None \/ exists ch, q_tree sv w = Some (q_root sv, ch))).
Proof.
  unfold query_x11_top_parent. rewrite vroot_is_root.
  destruct (Z.eqb_spec child None_) as [->|H0];
    [intros H; inversion H; left; split; [left|]; reflexivity|].
  destruct (Z.eqb_spec child (q_root sv)) as [->|Hr];
    [intros H; inversion H; left; split; [right|]; reflexivity|].
  simpl. intros H. right. exact (top_parent_loop_sound sv _ fuel child w H).
Qed.

Lemma last_default_irrelevant (l : list Window) (a b : Window) :
  l <> [] -> last l a = last l b.
Proof.
  induction l as [|x l IH]; intros H; [contradiction|].
  destruct l as [|y l]; [reflexivity|]. apply IH. discriminate.
Qed.

Lemma parent_chain_nonempty (sv : qserver) (root w : Window) (l : list Window) :
  parent_chain sv root w l -> l <> [].
Proof. intros H; destruct H; discriminate. Qed.

Lemma top_parent_loop_chain (sv : qserver) (root w : Window) (l : list Window) :
  parent_chain sv root w l ->
  top_parent_loop sv root (List.length l) w = Some (last l w).
Proof.
  intros H; induction H as [w ch Ht Hw|w p ch l Ht Hw Hp Hc IH]; simpl.
  - rewrite Ht, Z.eqb_refl. reflexivity.
  - rewrite Ht. destruct (Z.eqb_spec p root) as [E|_]; [contradiction|].
    rewrite IH. pose proof (parent_chain_nonempty _ _ _ _ Hc) as Hne.
    destruct l as [|y l]; [contradiction|].
    f_equal. apply last_default_irrelevant. discriminate.
Qed.

(** On a tree where the parents of [child] lead to the root, one
    iteration per window on the way is enough: [query_x11_top_parent]
    returns the last window before the root, the top-level ancestor of
    [child]. *)
Theorem query_x11_top_parent_chain (sv : qserver) (child : Window) (l : list Window) :
  child <> None_ -> parent_chain sv (q_root sv) child l ->
  query_x11_top_parent sv (List.length l) child = Some (last l child).
Proof.
  intros H0 Hc. unfold query_x11_top_parent. rewrite vroot_is_root.
  assert (Hr : child <> q_root sv) by (destruct Hc; assumption).
  rewrite (proj2 (Z.eqb_neq _ _) H0), (proj2 (Z.eqb_neq _ _) Hr). simpl.
  exact (top_parent_loop_chain sv _ child l Hc).
Qed.

Lemma query_x11_top_parent_chain_witness :
  query_x11_top_parent framed_client 2 5 = Some 4.
Proof.
  assert (Hc : parent_chain framed_client (q_root framed_client) 5 [5; 4]).
  { apply (pc_step _ _ 5 4 []); [reflexivity|discriminate|discriminate|].
    apply (pc_last _ _ 4 [5]); [reflexivity|discriminate]. }
  exact (query_x11_top_parent_chain framed_client 5 [5; 4] ltac:(discriminate) Hc).
Defined.

Lemma query_x11_top_parent_sound_witness :
  query_x11_top_parent framed_client 5 5 = Some 4 /\ ancestor framed_client 5 4.
Proof.
  assert (H : query_x11_top_parent framed_client 5 5 = Some 4) by reflexivity.
  split; [exact H|].
  destruct (query_x11_top_parent_sound framed_client 5 5 4 H)
    as [[[E|E] _]|[Ha _]]; [discriminate|discriminate|exact Ha].
Defined.

End QueryFacts.

(* ------------------------------------------------------------------------- *)
(** ** Transparency and the ARGB visual *)

Module TransparencyFacts.
Import Server Transparency.




Lemma pseudo_loop_chain (root : Window) (po : Window -> option Window)
  (w : Window) (l : list Window) :
  up_chain root po w l ->
  forall n, pseudo_loop root po n w = map SetParentRelative (firstn n l).
Proof.
  intros H; induction H as [w Hp Hw|w p l Hp Hw Hc IH]; intros [|n]; simpl;
    try reflexivity.
  - rewrite (proj2 (Z.eqb_neq _ _) Hw), Hp. destruct n; simpl; [reflexivity|].
    rewrite Z.eqb_refl. reflexivity.
  - rewrite (proj2 (Z.eqb_neq _ _) Hw), Hp, IH. reflexivity.
Qed.

(** When the parents of [win] lead to the root, pseudo transparency sets
    exactly the windows on that path below the root, from [win] upwards,
    the path cut at 50 windows. *)
Theorem pseudo_transparency_path (argb_value : Z) (root : Window)
  (po : Window -> option Window) (win : Window) (l : list Window) :
  up_chain root po win l ->
  set_transparent_background false true argb_value root po win
  = map SetParentRelative (firstn 50 l).
Proof.
  intros H. unfold set_transparent_background. exact (pseudo_loop_chain root po win l H 50).
Qed.

Lemma pseudo_transparency_path_witness :
  let po := fun w => if w =? 5 then Some 4 else if w =? 4 then Some 1 else None in
  set_transparent_background false true 200 1 po 5
  = [SetParentRelative 5; SetParentRelative 4].
Proof.
  intros po.
  apply (pseudo_transparency_path 200 1 po 5 [5; 4]).
  apply up_step with (p := 4); [reflexivity|discriminate|].
  apply up_last; [reflexivity|discriminate].
Defined.



(** [get_argb_visual] returns 1 exactly when some visual has depth 32 and
    the masks ff0000/00ff00/0000ff; it then reports the first such visual
    of the list, with depth 32.  Otherwise it returns 0 and leaves
    [*visual] and [*depth] untouched. *)
Theorem get_argb_visual_first (l : list visual_info) (visual0 depth0 : Z) :
  (forall v d, get_argb_visual l visual0 depth0 = (1, v, d) ->
   d = 32 /\ exists pre x post, l = pre ++ x :: post /\ argb_ok x = true /\
     forallb (fun y => negb (argb_ok y)) pre = true /\ v = vi_visual x) /\
  (forallb (fun y => negb (argb_ok y)) l = true <->
   get_argb_visual l visual0 depth0 = (0, visual0, depth0)).
Proof.
  unfold get_argb_visual. split.
  - intros v d. induction l as [|x l IH]; simpl; [discriminate|].
    destruct (argb_ok x) eqn:Ex.
    + intros H; inversion H; subst. split.
      * unfold argb_ok in Ex. apply andb_true_iff in Ex as [Ex _].
        apply andb_true_iff in Ex as [Ex _]. apply andb_true_iff in Ex as [Ex _].
        apply Z.eqb_eq in Ex. exact Ex.
      * exists [], x, l. repeat split; assumption.
    + intros H. destruct (IH H) as [Hd [pre [y [post [E [Hy [Hpre Hv]]]]]]].
      split; [exact Hd|]. exists (x :: pre), y, post. subst l.
      repeat split; try assumption. simpl. rewrite Ex, Hpre. reflexivity.
  - induction l as [|x l IH]; simpl; [tauto|].
    destruct (argb_ok x); simpl; [split; intros H; discriminate|exact IH].
Qed.
End TransparencyFacts.

(* ------------------------------------------------------------------------- *)
(** ** The X error handler's texts *)

Module ErrorHandlerFacts.
Import CStr ErrorHandler.

Lemma digit_char_not_nul (d : Z) : 0 <= d < 10 -> digit_char d <> nul.
Proof.
  intros Hd H. apply (f_equal Ascii.nat_of_ascii) in H. unfold digit_char in H.
  rewrite Ascii.nat_ascii_embedding in H by lia.
  change (Ascii.nat_of_ascii nul) with 0%nat in H. lia.
Qed.

Lemma dec_digits_shape (fuel : nat) :
  forall n acc, exists ds, dec_digits fuel n acc = ds ++ acc /\
  (forall c, In c ds -> c <> nul) /\
  (forall k, 0 <= n < 10 ^ k -> 1 <= k -> (List.length ds <= Z.to_nat k)%nat).
Proof.
  induction fuel as [|f IH]; intros n acc; simpl.
  - exists []. split; [reflexivity|]. split; [intros c []|intros; simpl; lia].
  - pose proof (Z.mod_pos_bound n 10 ltac:(lia)) as Hm.
    destruct (Z.ltb_spec n 10) as [Hlt|Hge].
    + exists [digit_char (n mod 10)]. split; [reflexivity|]. split.
      * intros c [<-|[]]. apply digit_char_not_nul. exact Hm.
      * intros k _ Hk. simpl. lia.
    + destruct (IH (n / 10) (digit_char (n mod 10) :: acc)) as [ds [E [Hn Hl]]].
      exists (ds ++ [digit_char (n mod 10)]). split.
      * rewrite E, <- app_assoc. reflexivity.
      * split.
        -- intros c Hc. apply in_app_or in Hc. destruct Hc as [Hc|[<-|[]]];
             [exact (Hn c Hc)|apply digit_char_not_nul; exact Hm].
        -- intros k Hk H1. rewrite length_app. simpl.
           assert (Hk2 : 2 <= k).
           { destruct (Z.eq_dec k 1) as [->|]; [simpl in Hk; lia|lia]. }
           assert (Hp : 10 ^ k = 10 * 10 ^ (k - 1))
             by (rewrite <- Z.pow_succ_r by lia; f_equal; lia).
           assert (Hd : 0 <= n / 10 < 10 ^ (k - 1)).
           { split; [apply Z.div_pos; lia|].
             apply Z.div_lt_upper_bound; lia. }
           pose proof (Hl (k - 1) Hd ltac:(lia)). lia.
Qed.

Lemma dec_small (n : Z) : 0 <= n <= 255 ->
  (forall c, In c (dec n) -> c <> nul) /\ (List.length (dec n) <= 3)%nat.
Proof.
  intros Hn. unfold dec. destruct (Z.ltb_spec n 0) as [|_]; [lia|].
  destruct (dec_digits_shape 20 n []) as [ds [E [Hc Hl]]].
  rewrite E, app_nil_r. split; [exact Hc|].
  exact (Hl 3 ltac:(simpl; lia) ltac:(lia)).
Qed.

Lemma take_cstr_no_nul (s : list ascii) :
  (forall c, In c s -> c <> nul) -> take_cstr s = s.
Proof.
  induction s as [|c s IH]; intros H; simpl; [reflexivity|].
  destruct (Ascii.eqb_spec c nul) as [E|_]; [exfalso; exact (H c (or_introl eq_refl) E)|].
  f_equal. apply IH. intros x Hx. exact (H x (or_intror Hx)).
Qed.

Lemma snprintf_s_fits (n : Z) (s : list ascii) :
  (forall c, In c s -> c <> nul) -> (Z.of_nat (List.length s) < n) ->
  snprintf_s n s = s.
Proof.
  intros Hc Hl. unfold snprintf_s.
  destruct (Z.leb_spec n 0); [lia|].
  rewrite take_cstr_no_nul by exact Hc. apply firstn_all2. lia.
Qed.

(** The names table is one entry off the X protocol's numbering: for
    each code from 1 to 16 the handler prints the name of the next error
    code (so "request" is never printed, and 17, [BadImplementation],
    prints as a number). *)
Theorem error_name_off_by_one (code : Z) :
  1 <= code <= 16 -> code_of_name (error_name code) = Some (code + 1).
Proof.
  intros H.
  replace code with (Z.of_nat (Z.to_nat code)) by lia.
  assert (Hn : (1 <= Z.to_nat code <= 16)%nat) by lia.
  revert Hn. generalize (Z.to_nat code). intros n Hn.
  do 17 (destruct n as [|n]; [first [lia | reflexivity]|]). lia.
Qed.

Lemma error_name_off_by_one_witness :
  (1 <= 2 <= 16) /\ code_of_name (error_name 2) = Some 3 /\
  error_name 2 = of_string "window" /\ error_name 17 = of_string "17".
Proof.
  split; [lia|]. split; [apply error_name_off_by_one; lia|].
  split; reflexivity.
Defined.

(** Every other error code (an [unsigned char]) is printed in decimal in
    the 4-byte buffer without truncation. *)
Theorem error_name_decimal (code : Z) :
  0 <= code <= 255 -> ~ (1 <= code <= 16) ->
  error_name code = dec code /\ (List.length (dec code) <= 3)%nat.
Proof.
  intros Hr Hn. destruct (dec_small code Hr) as [Hc Hl].
  unfold error_name.
  destruct (Z.gtb_spec code 0); destruct (Z.ltb_spec code 17); simpl;
    try lia; (split; [apply snprintf_s_fits; [exact Hc|lia]|exact Hl]).
Qed.

Lemma error_name_decimal_witness :
  error_name 255 = of_string "255" /\ error_name 0 = of_string "0".
Proof.
  split.
  - rewrite (proj1 (error_name_decimal 255 ltac:(lia) ltac:(lia))). reflexivity.
  - rewrite (proj1 (error_name_decimal 0 ltac:(lia) ltac:(lia))). reflexivity.
Defined.

(** The 37-byte [code_description] buffer holds the whole text for any
    request and minor codes (both [unsigned char]s): at most 36
    characters and its terminator. *)
Theorem code_description_fits (request_code minor_code : Z) :
  0 <= request_code <= 255 -> 0 <= minor_code <= 255 ->
  code_description request_code minor_code =
    of_string "error code: [major: " ++ dec request_code
    ++ of_string ", minor: " ++ dec minor_code ++ of_string "]" /\
  (List.length (code_description request_code minor_code) <= 36)%nat.
Proof.
  intros Hr Hm.
  destruct (dec_small request_code Hr) as [Hcr Hlr].
  destruct (dec_small minor_code Hm) as [Hcm Hlm].
  set (s := of_string "error code: [major: " ++ dec request_code
            ++ of_string ", minor: " ++ dec minor_code ++ of_string "]").
  assert (Hc : forall c, In c s -> c <> nul).
  { intros c Hin. subst s.
    repeat (apply in_app_or in Hin; destruct Hin as [Hin|Hin]);
      try (apply Hcr; exact Hin); try (apply Hcm; exact Hin);
      simpl in Hin; repeat (destruct Hin as [<-|Hin]; [discriminate|]);
      destruct Hin. }
  assert (Hl : (List.length s <= 36)%nat).
  { subst s. rewrite !length_app. simpl. lia. }
  unfold code_description. fold s.
  rewrite (snprintf_s_fits 37 s Hc ltac:(lia)). split; [reflexivity|exact Hl].
Qed.

Lemma code_description_fits_witness :
  List.length (code_description 255 255) = 36%nat.
Proof.
  rewrite (proj1 (code_description_fits 255 255 ltac:(lia) ltac:(lia))).
  reflexivity.
Defined.

End ErrorHandlerFacts.

(* ------------------------------------------------------------------------- *)
(** ** Reading /proc/i8k *)

Module I8kProcFacts.
Import CStr I8kProc.

Lemma strtok_n_nul (n : nat) (pad : list ascii) :
  strtok_n n (nul :: pad) = Some (repeat None n).
Proof.
  induction n as [|n IH]; [reflexivity|].
  simpl strtok_n. change (strtok (nul :: pad)) with (Some (@None (list ascii), nul :: pad)).
  rewrite IH. reflexivity.
Qed.

Lemma strtok_n_space (n : nat) (x : list ascii) :
  strtok_n n (space :: x) = strtok_n n x.
Proof. destruct n; reflexivity. Qed.

Lemma eqb_false (a b : ascii) : a <> b -> Ascii.eqb a b = false.
Proof. apply Ascii.eqb_neq. Qed.

Lemma take_words (s : list ascii) :
  forall c pad, no_nul (c :: s) -> c <> space ->
  exists t r, strtok_take ((c :: s) ++ nul :: pad) = Some (t, r ++ nul :: pad) /\
    words (c :: s) = t :: words r /\ (List.length r < List.length (c :: s))%nat /\
    no_nul r.
Proof.
  induction s as [|d s IH]; intros c pad Hn Hc.
  - assert (Hc0 : c <> nul) by (intros ->; apply Hn; left; reflexivity).
    exists [c], []. simpl. rewrite (eqb_false _ _ Hc0), (eqb_false _ _ Hc).
    repeat split; [simpl; lia|intros []].
  - assert (Hc0 : c <> nul) by (intros ->; apply Hn; left; reflexivity).
    assert (Hd0 : d <> nul) by (intros ->; apply Hn; right; left; reflexivity).
    assert (Hs : no_nul s) by (intros H; apply Hn; right; right; exact H).
    destruct (Ascii.eqb_spec d space) as [->|Hd].
    + exists [c], s. cbn [app strtok_take words].
      rewrite (eqb_false _ _ Hc0), (eqb_false _ _ Hc).
      change (Ascii.eqb space nul) with false. change (Ascii.eqb space space) with true.
      repeat split; [simpl; lia|exact Hs].
    + destruct (IH d pad ltac:(intros H; apply Hn; right; exact H) Hd)
        as [t [r [Et [Ew [Hl Hr]]]]].
      exists (c :: t), r.
      change ((c :: d :: s) ++ nul :: pad) with (c :: ((d :: s) ++ nul :: pad)).
      cbn [strtok_take]. rewrite (eqb_false _ _ Hc0), (eqb_false _ _ Hc), Et.
      split; [reflexivity|]. split.
      * assert (Hw : words (c :: d :: s) =
          if Ascii.eqb c space then words (d :: s)
          else if Ascii.eqb d space then [c] :: words (d :: s)
          else match words (d :: s) with w :: ws => (c :: w) :: ws | [] => [[c]] end)
          by reflexivity.
        rewrite Hw, (eqb_false _ _ Hc), (eqb_false _ _ Hd), Ew. reflexivity.
      * split; [simpl in *; lia|exact Hr].
Qed.

Lemma strtok_n_words (N : nat) :
  forall n s pad, (List.length s <= N)%nat -> no_nul s ->
  strtok_n n (s ++ nul :: pad) = Some (fields_of n (words s)).
Proof.
  induction N as [|N IH]; intros n s pad Hl Hn.
  - destruct s; [|simpl in Hl; lia].
    simpl. rewrite strtok_n_nul. unfold fields_of. rewrite firstn_nil. simpl.
    rewrite Nat.sub_0_r. reflexivity.
  - destruct n as [|n]; [reflexivity|].
    destruct s as [|c s];
      [cbn [app]; rewrite strtok_n_nul; unfold fields_of; rewrite firstn_nil;
       reflexivity|].
    destruct (Ascii.eqb_spec c space) as [->|Hc].
    + change ((space :: s) ++ nul :: pad) with (space :: (s ++ nul :: pad)).
      rewrite strtok_n_space, IH.
      * cbn [words]. change (Ascii.eqb space space) with true. reflexivity.
      * simpl in Hl; lia.
      * intros H; apply Hn; right; exact H.
    + assert (Hc0 : c <> nul) by (intros ->; apply Hn; left; reflexivity).
      destruct (take_words s c pad Hn Hc) as [t [r [Et [Ew [Hlr Hr]]]]].
      cbn [strtok_n]. unfold strtok.
      change ((c :: s) ++ nul :: pad) with (c :: (s ++ nul :: pad)) in *.
      cbn [strtok_skip]. rewrite (eqb_false _ _ Hc), (eqb_false _ _ Hc0), Et.
      rewrite (IH n r pad ltac:(simpl in *; lia) Hr), Ew.
      reflexivity.
Qed.

Lemma read_buf_short (content : list ascii) :
  (List.length content < 128)%nat ->
  read_buf content = content ++ nul :: repeat nul (127 - List.length content).
Proof.
  intros Hl. unfold read_buf. rewrite firstn_all2 by lia.
  replace (128 - List.length content)%nat with (S (127 - List.length content)) by lia.
  reflexivity.
Qed.

(** When /proc/i8k holds less than 128 bytes and no NUL, [update_i8k]
    fills the ten fields, in order, with the space-separated words of the
    file (a newline is not a delimiter and stays in its word); fields
    beyond the last word are NULL. *)
Theorem update_i8k_fields (content : list ascii) (fields : list cptr) :
  no_nul content -> (List.length content < 128)%nat ->
  update_i8k (Some content) fields = (0, Some (fields_of 10 (words content))).
Proof.
  intros Hn Hl. unfold update_i8k. rewrite read_buf_short by exact Hl.
  rewrite (strtok_n_words (List.length content) 10 content _ (le_n _) Hn).
  reflexivity.
Qed.

Lemma update_i8k_fields_witness :
  let content := of_string "1.0 A17 2J17 60 2 1 2340 1800 1 0" ++ ["010"%char] in
  update_i8k (Some content) [] =
    (0, Some (map Some (map of_string
      ["1.0"; "A17"; "2J17"; "60"; "2"; "1"; "2340"; "1800"; "1"]%string
      ++ [of_string "0" ++ ["010"%char]]))).
Proof.
  intros content.
  rewrite (update_i8k_fields content []).
  - reflexivity.
  - unfold no_nul. vm_compute. intros H. repeat destruct H as [H|H]; try discriminate.
    exact H.
  - apply Nat.ltb_lt. vm_compute. reflexivity.
Defined.



(** [print_i8k_ac_status] writes "disabled (read i8k docs)", "off" or
    "on" for a field read as -1, 0 or 1 (the three tests never both
    fire); any other value, including the stale [ac_status] when the
    field holds no number, leaves the buffer as it was. *)
Theorem print_i8k_ac_status_cases (p_max_size : Z) (s : list ascii) (ac0 : Z)
  (p : list ascii) :
  let v := match sscanf_d s with Some v => v | None => ac0 end in
  print_i8k_ac_status p_max_size (Some s) ac0 p =
  Some (if v =? -1 then snprintf_s p_max_size (of_string "disabled (read i8k docs)")
        else if v =? 0 then snprintf_s p_max_size (of_string "off")
        else if v =? 1 then snprintf_s p_max_size (of_string "on")
        else p).
Proof.
  intros v. unfold print_i8k_ac_status. fold v.
  destruct (Z.eqb_spec v (-1)) as [->|H1]; [reflexivity|].
  destruct (Z.eqb_spec v 0) as [->|H0]; [reflexivity|].
  destruct (Z.eqb_spec v 1) as [->|H2]; reflexivity.
Qed.

End I8kProcFacts.

(* ------------------------------------------------------------------------- *)
(** ** Input masks of [x11_init_window] *)

Module InputSetupFacts.
Import Server Propagate DesktopInfo InputSetup.

Lemma set_slot_length (l : list Z) (k : nat) (v : Z) :
  List.length (Struts.set_slot l k v) = List.length l.
Proof.
  revert k; induction l as [|x l IH]; intros [|k]; cbn; auto.
Qed.

Lemma nth_set_slot_same (l : list Z) (k : nat) (v d : Z) :
  (k < List.length l)%nat -> nth k (Struts.set_slot l k v) d = v.
Proof.
  revert k; induction l as [|x l IH]; intros [|k] Hk; cbn in *; try lia; auto.
  apply IH; lia.
Qed.

Lemma set_slot_twice (l : list Z) (k : nat) (v w : Z) :
  Struts.set_slot (Struts.set_slot l k v) k w = Struts.set_slot l k w.
Proof.
  revert k; induction l as [|x l IH]; intros [|k]; cbn; f_equal; auto.
Qed.

Lemma set_slot_nth_self (l : list Z) (k : nat) (d : Z) :
  Struts.set_slot l k (nth k l d) = l.
Proof.
  revert k; induction l as [|x l IH]; intros [|k]; cbn; f_equal; auto.
Qed.

Lemma byte_set_clear (b k : Z) :
  0 <= k -> Z.testbit b k = false ->
  Z.land (Z.lor b (Z.shiftl 1 k)) (Z.lnot (Z.shiftl 1 k)) = b.
Proof.
  intros Hk Hb. rewrite Z.shiftl_1_l.
  apply Z.bits_inj'; intros j Hj.
  rewrite Z.land_spec, Z.lor_spec, Z.lnot_spec by exact Hj.
  rewrite Z.pow2_bits_eqb by exact Hk.
  destruct (Z.eqb_spec k j) as [<-|_].
  - rewrite Hb. reflexivity.
  - rewrite orb_false_r, andb_true_r. reflexivity.
Qed.

Lemma byte_set_bit (b k : Z) :
  0 <= k -> Z.testbit (Z.lor b (Z.shiftl 1 k)) k = true.
Proof.
  intros Hk. rewrite Z.lor_spec, Z.shiftl_1_l, Z.pow2_bits_true by exact Hk.
  apply orb_true_r.
Qed.

(** A mask whose bytes past the second are all zero has no bit from 16 on. *)
Lemma mask_high_clear (b0 b1 : Z) (n : nat) (ev : Z) :
  16 <= ev -> XIMaskIsSet (b0 :: b1 :: repeat 0 n) ev = false.
Proof.
  intros Hev. unfold XIMaskIsSet.
  assert (Hi : (2 <= Z.to_nat (Z.shiftr ev 3))%nat).
  { rewrite Z.shiftr_div_pow2 by lia.
    assert (2 <= ev / 2 ^ 3) by (apply Z.div_le_lower_bound; cbn; lia). lia. }
  destruct (Z.to_nat (Z.shiftr ev 3)) as [|[|i]]; [lia|lia|].
  cbn [nth]. rewrite nth_repeat. apply Z.bits_0.
Qed.

Lemma mask_size_ge_2 (L : Z) :
  9 <= L -> exists n, Z.to_nat ((L + 7) / 8) = S (S n).
Proof.
  intros HL. exists (Z.to_nat ((L + 7) / 8) - 2)%nat.
  assert (2 <= (L + 7) / 8) by (apply Z.div_le_lower_bound; lia). lia.
Qed.

Lemma legacy_mask_range (k : Z) (m : Z) :
  0 <= m < 2 ^ 23 -> Z.testbit m k = true -> 0 <= k < 23.
Proof.
  intros Hm Hk. destruct (Z.ltb_spec k 0).
  - rewrite Z.testbit_neg_r in Hk by lia. discriminate.
  - destruct (Z.ltb_spec k 23); [lia|].
    destruct (Z.eq_dec m 0) as [->|Hm0]; [rewrite Z.bits_0 in Hk; discriminate|].
    rewrite Z.bits_above_log2 in Hk; [discriminate|lia|].
    apply (Z.log2_lt_pow2 m k); [lia|].
    apply Z.lt_le_trans with (2 ^ 23); [lia|apply Z.pow_le_mono_r; lia].
Qed.

Lemma set_hierarchy (a b : Z) (r : list Z) :
  XISetMask (a :: b :: r) XI_HierarchyChanged = a :: Z.lor b 8 :: r.
Proof. reflexivity. Qed.

Lemma set_motion (a : Z) (r : list Z) :
  XISetMask (a :: r) XI_Motion = Z.lor a 64 :: r.
Proof. reflexivity. Qed.

Lemma set_press (a : Z) (r : list Z) :
  XISetMask (a :: r) XI_ButtonPress = Z.lor a 16 :: r.
Proof. reflexivity. Qed.

Lemma set_release (a : Z) (r : list Z) :
  XISetMask (a :: r) XI_ButtonRelease = Z.lor a 32 :: r.
Proof. reflexivity. Qed.

Lemma clear_motion (a : Z) (r : list Z) :
  XIClearMask (a :: r) XI_Motion = Z.land a (Z.lnot 64) :: r.
Proof. reflexivity. Qed.

(** Settles a bit of a mask whose bytes past the second are zero: an
    event below 16 by evaluation, any later one by [mask_high_clear]. *)
Ltac mask_bits ev Hev :=
  destruct (Z.ltb_spec ev 16) as [Hlt|Hge];
  [ assert (ev = 0 \/ ev = 1 \/ ev = 2 \/ ev = 3 \/ ev = 4 \/ ev = 5 \/
            ev = 6 \/ ev = 7 \/ ev = 8 \/ ev = 9 \/ ev = 10 \/ ev = 11 \/
            ev = 12 \/ ev = 13 \/ ev = 14 \/ ev = 15) as Hc by lia;
    repeat destruct Hc as [->|Hc]; subst; reflexivity
  | rewrite mask_high_clear by exact Hge;
    unfold XI_HierarchyChanged, XI_Motion, XI_ButtonPress, XI_ButtonRelease;
    repeat rewrite (proj2 (Z.eqb_neq ev _)) by lia; reflexivity ].

(** When XInput 2 comes up, [x11_init_window] selects XInput events on the
    root window, with HierarchyChanged, Motion iff mouse events are built,
    and the two button events iff the window is not conky's own; and, for
    its own window only, a second selection on that window with
    HierarchyChanged and the two button events but never Motion. No other
    XInput event is selected. *)
Theorem init_xi_masks (cfg : input_cfg) (root win : Window) :
  build_xinput cfg && has_xinput_extension cfg && xi2_supported cfg = true ->
  9 <= XI_LASTEVENT cfg ->
  exists rm rest,
    fst (input_setup cfg root win) = XISelectEvents root rm :: rest /\
    (forall ev, 0 <= ev ->
       XIMaskIsSet rm ev =
         (ev =? XI_HierarchyChanged)
         || (build_mouse_events cfg && (ev =? XI_Motion))
         || (negb (own cfg) && ((ev =? XI_ButtonPress) || (ev =? XI_ButtonRelease)))) /\
    (if own cfg then
       exists wm, rest = [XISelectEvents win wm] /\
         forall ev, 0 <= ev ->
           XIMaskIsSet wm ev =
             (ev =? XI_HierarchyChanged) || (ev =? XI_ButtonPress)
             || (ev =? XI_ButtonRelease)
     else rest = []).
Proof.
  intros Hx HL. destruct (mask_size_ge_2 _ HL) as [n Hn].
  unfold input_setup. rewrite Hx, Hn. cbn [repeat].
  rewrite set_hierarchy.
  destruct (build_mouse_events cfg), (own cfg); cbn [negb];
    repeat rewrite ?set_motion, ?set_press, ?set_release, ?clear_motion; cbn [fst];
    (eexists _, _; split; [reflexivity|]); split;
    first [ reflexivity
          | intros ev Hev; mask_bits ev Hev
          | eexists; split; [reflexivity|]; intros ev Hev; mask_bits ev Hev ].
Qed.

Lemma init_xi_masks_witness :
  let cfg := mk_input_cfg true true true true false true true 32 in
  (build_xinput cfg && has_xinput_extension cfg && xi2_supported cfg = true /\
   9 <= XI_LASTEVENT cfg) /\
  exists rm rest,
    fst (input_setup cfg 1 2) = XISelectEvents 1 rm :: rest /\
    (forall ev, 0 <= ev ->
       XIMaskIsSet rm ev =
         (ev =? XI_HierarchyChanged)
         || (build_mouse_events cfg && (ev =? XI_Motion))
         || (negb (own cfg) && ((ev =? XI_ButtonPress) || (ev =? XI_ButtonRelease)))) /\
    (if own cfg then
       exists wm, rest = [XISelectEvents 2 wm] /\
         forall ev, 0 <= ev ->
           XIMaskIsSet wm ev =
             (ev =? XI_HierarchyChanged) || (ev =? XI_ButtonPress)
             || (ev =? XI_ButtonRelease)
     else rest = []).
Proof.
  intros cfg. split; [split; [reflexivity|cbn; lia]|].
  apply init_xi_masks; [reflexivity|cbn; lia].
Defined.

(** The core event mask given to [XSelectInput]: Exposure and
    PropertyChange always; StructureNotify iff the [own_window] setting is
    on; the two button masks iff that setting is on and XInput is not
    built; pointer motion, enter and leave iff mouse events are built, the
    window is conky's own, its type is not DESKTOP and XInput 2 did not
    come up. The mask holds no other bit. *)
Theorem init_input_mask (cfg : input_cfg) (root win : Window) :
  let m := snd (input_setup cfg root win) in
  let xinput_ok := build_xinput cfg && has_xinput_extension cfg && xi2_supported cfg in
  let fallback :=
    build_mouse_events cfg && negb xinput_ok && own cfg && negb (type_is_desktop cfg) in
  Z.testbit m 15 = true /\ Z.testbit m 22 = true /\
  Z.testbit m 17 = own_window_setting cfg /\
  Z.testbit m 2 = own_window_setting cfg && negb (build_xinput cfg) /\
  Z.testbit m 3 = own_window_setting cfg && negb (build_xinput cfg) /\
  Z.testbit m 4 = fallback /\ Z.testbit m 5 = fallback /\ Z.testbit m 6 = fallback /\
  (forall k, Z.testbit m k = true -> In k [2; 3; 4; 5; 6; 15; 17; 22]).
Proof.
  intros m xinput_ok fallback. subst m xinput_ok fallback.
  unfold input_setup.
  destruct cfg as [bx bm ows ow dt ext xi2 L]; cbn [build_xinput
    build_mouse_events own_window_setting own type_is_desktop
    has_xinput_extension xi2_supported XI_LASTEVENT].
  destruct bx, bm, ows, ow, dt, ext, xi2; cbn;
    (split; [reflexivity|]); repeat (split; [reflexivity|]);
    intros k Hk;
    (match type of Hk with
     | Z.testbit ?m _ = true =>
         assert (Hr : 0 <= k < 23)
           by (apply (legacy_mask_range k m); [|exact Hk];
               split; [apply Z.leb_le|apply Z.ltb_lt]; vm_compute; reflexivity)
     end);
    (assert (k = 0 \/ k = 1 \/ k = 2 \/ k = 3 \/ k = 4 \/ k = 5 \/ k = 6 \/
             k = 7 \/ k = 8 \/ k = 9 \/ k = 10 \/ k = 11 \/ k = 12 \/ k = 13 \/
             k = 14 \/ k = 15 \/ k = 16 \/ k = 17 \/ k = 18 \/ k = 19 \/
             k = 20 \/ k = 21 \/ k = 22) as Hc by lia);
    repeat destruct Hc as [->|Hc]; subst; cbn in Hk |- *;
    first [discriminate | tauto].
Qed.

(** [XISetMask] sets the event's bit; [XIClearMask] after it restores a
    mask in which the bit was clear, as long as the event's byte lies in
    the mask. *)
Theorem xi_set_clear_roundtrip (m : list Z) (ev : Z) :
  0 <= ev -> (Z.to_nat (Z.shiftr ev 3) < List.length m)%nat ->
  XIMaskIsSet m ev = false ->
  XIMaskIsSet (XISetMask m ev) ev = true /\
  XIClearMask (XISetMask m ev) ev = m.
Proof.
  intros Hev Hi Hb. unfold XIMaskIsSet, XIClearMask, XISetMask in *.
  set (i := Z.to_nat (Z.shiftr ev 3)) in *.
  assert (Hk : 0 <= Z.land ev 7) by (apply Z.land_nonneg; lia).
  rewrite nth_set_slot_same by exact Hi.
  split; [apply byte_set_bit; exact Hk|].
  rewrite set_slot_twice, byte_set_clear by assumption.
  apply set_slot_nth_self.
Qed.

Lemma xi_set_clear_roundtrip_witness :
  (0 <= XI_Motion /\ (Z.to_nat (Z.shiftr XI_Motion 3) < List.length [0; 8; 0; 0; 0])%nat /\
   XIMaskIsSet [0; 8; 0; 0; 0] XI_Motion = false) /\
  XIClearMask (XISetMask [0; 8; 0; 0; 0] XI_Motion) XI_Motion = [0; 8; 0; 0; 0].
Proof.
  split; [split; [unfold XI_Motion; lia|split; [apply Nat.ltb_lt; vm_compute; reflexivity|reflexivity]]|].
  apply (xi_set_clear_roundtrip [0; 8; 0; 0; 0] XI_Motion);
    [unfold XI_Motion; lia|apply Nat.ltb_lt; vm_compute; reflexivity|reflexivity].
Defined.

End InputSetupFacts.
